(** * Credit scoring engine ([backend/scoring.py])

    A shallow embedding of the scoring module: feature preprocessing, the
    0-100 score with its three risk tiers, the rule-based risk factor
    analysis, the synthetic corpus generator and the artifact store; and
    of its callers, the [/score] endpoint of [backend/main.py] with its
    explanation text and the script [backend/train_model.py].

    Python [int] is [Z]; Python [float] is an IEEE 754 binary64 value of
    [spec_float], with the operations of the standard library's
    [SpecFloat]; a raised exception is the left injection of a sum.
    Objects of numpy, scikit-learn and joblib are parameters of the
    sections that use them. *)

From Stdlib Require Import ZArith Zpower Lia List Bool Ascii String DecimalString.
From Stdlib Require Import Floats.SpecFloat.
From stdpp Require Import gmap strings.

Open Scope Z_scope.

(** ** Python exceptions and results *)

Module Py.

(** The exception classes that the code can meet.  [LoadError] stands
    for whatever [joblib.load] raises on a file that is not a complete
    pickle ([ValueError], [EOFError], [struct.error] or
    [UnpicklingError], depending on where the file ends): the code
    never tells these apart. *)
Inductive exn : Set :=
| ZeroDivisionError
| OverflowError
| ValueError
| IndexError
| AttributeError
| OSError
| LoadError
| TypeError.

(** The outcome of evaluating an expression: a value, or a raised
    exception. *)
Definition result (A : Type) : Type := (exn + A)%type.

Definition ok {A} (a : A) : result A := inr a.
Definition raise {A} (e : exn) : result A := inl e.

Definition bind {A B} (r : result A) (k : A -> result B) : result B :=
  match r with
  | inl e => inl e
  | inr a => k a
  end.

Definition raises {A} (r : result A) : Prop := exists e, r = inl e.
Definition returns {A} (r : result A) : Prop := exists a, r = inr a.

End Py.

Notation "x <- r ;; k" := (Py.bind r (fun x => k))
  (at level 100, r at next level, right associativity).

(** ** binary64 floats as Python uses them *)

Module F64.

Definition prec : Z := 53.
Definition emax : Z := 1024.

Abbreviation float := spec_float.

Definition valid (x : float) : bool := valid_binary prec emax x.

Definition mul : float -> float -> float := SFmul prec emax.
Definition add : float -> float -> float := SFadd prec emax.
Definition ltb : float -> float -> bool := SFltb.
Definition leb : float -> float -> bool := SFleb.
Definition eqb : float -> float -> bool := SFeqb.
Definition gtb (x y : float) : bool := SFltb y x.

(** The double nearest to an integer (ties to even), infinite beyond
    the range of the format. *)
Definition of_Z (n : Z) : float := binary_normalize prec emax n 0 false.

Definition is_finite (x : float) : bool :=
  match x with
  | S754_zero _ | S754_finite _ _ _ => true
  | _ => false
  end.

(** [float(n)] for an [int]: rounds to nearest, and raises
    [OverflowError] when the integer is too large for a double. *)
Definition of_int (n : Z) : Py.result float :=
  let x := of_Z n in
  if is_finite x then Py.ok x else Py.raise Py.OverflowError.

(** [int(x)] for a [float]: truncation toward zero; NaN raises
    [ValueError], an infinity raises [OverflowError]. *)
Definition to_int (x : float) : Py.result Z :=
  match x with
  | S754_zero _ => Py.ok 0
  | S754_nan => Py.raise Py.ValueError
  | S754_infinity _ => Py.raise Py.OverflowError
  | S754_finite s m e => Py.ok (cond_Zopp s (Z.shiftl (Zpos m) e))
  end.

(** The mathematical floor of a finite float (undefined on NaN and on
    the infinities). *)
Definition floor (x : float) : option Z :=
  match x with
  | S754_zero _ => Some 0
  | S754_finite s m e => Some (Z.shiftl (cond_Zopp s (Zpos m)) e)
  | _ => None
  end.

(** [x / y] on floats: a zero divisor raises. *)
Definition div (x y : float) : Py.result float :=
  match y with
  | S754_zero _ => Py.raise Py.ZeroDivisionError
  | _ => Py.ok (SFdiv prec emax x y)
  end.

(** A decimal literal [num/den] of the source: the nearest double. *)
Definition dec (num den : Z) : float := SFdiv prec emax (of_Z num) (of_Z den).

Definition nan : float := S754_nan.
Definition zero : float := S754_zero false.
Definition one : float := Eval vm_compute in of_Z 1.
Definition f0_1 : float := Eval vm_compute in dec 1 10.
Definition f0_2 : float := Eval vm_compute in dec 2 10.
Definition f0_3 : float := Eval vm_compute in dec 3 10.
Definition f0_4 : float := Eval vm_compute in dec 4 10.
Definition f0_5 : float := Eval vm_compute in dec 5 10.
Definition f0_6 : float := Eval vm_compute in dec 6 10.
Definition f0_7 : float := Eval vm_compute in dec 7 10.
Definition f0_8 : float := Eval vm_compute in dec 8 10.
Definition f0_9 : float := Eval vm_compute in dec 9 10.
Definition f1_2 : float := Eval vm_compute in dec 12 10.
Definition f1_5 : float := Eval vm_compute in dec 15 10.
Definition f30 : float := Eval vm_compute in of_Z 30.
Definition f50 : float := Eval vm_compute in of_Z 50.
Definition f60 : float := Eval vm_compute in of_Z 60.
Definition f100 : float := Eval vm_compute in of_Z 100.

Definition of_bool (b : bool) : float := if b then one else zero.

(** [np.maximum] and [np.minimum]: NaN propagates. *)
Definition maximum (x y : float) : float :=
  match SFcompare x y with
  | Some Lt => y
  | Some _ => x
  | None => nan
  end.
Definition minimum (x y : float) : float :=
  match SFcompare x y with
  | Some Gt => y
  | Some _ => x
  | None => nan
  end.

End F64.

Abbreviation float := spec_float.

(** ** Strings *)

(** [str.lower()] on the code units of a string: the letters A-Z are the
    only characters whose lowercase form is a letter of the two keywords
    the module compares against. *)
Definition lower_ascii (c : ascii) : ascii :=
  let n := nat_of_ascii c in
  if ((65 <=? n)%nat && (n <=? 90)%nat)%bool then ascii_of_nat (n + 32) else c.

Fixpoint lower (s : string) : string :=
  match s with
  | EmptyString => EmptyString
  | String c s' => String (lower_ascii c) (lower s')
  end.

(** [x in l] for a list of strings. *)
Definition str_in (x : string) (l : list string) : bool :=
  existsb (String.eqb x) l.

(** ** The applicant record *)

(** What a [dict] holds under a key that [schemas.CreditInput] types
    [Optional[float]] and the module reads with [data.get(key, 0)]:
    nothing (the key is absent), [None], or a float. *)
Inductive optional_float : Type :=
| Absent
| PyNone
| Float (x : float).

(** The [dict] that [predict_credit_score] receives, with the keys and
    value types of [schemas.CreditInput]. *)
Record CreditInput : Type := {
  name : string;
  age : Z;
  marital_status : string;
  gender : option string;
  nationality : string;
  monthly_income : float;
  monthly_expense : float;
  debt_percentage : float;
  active_debts : bool;
  previous_loans : Z;
  late_payments : Z;
  active_credit_cards : bool;
  spending_behavior : string;
  payment_delay : optional_float;
  average_balance : optional_float
}.

(** ** [preprocess_features] *)

Definition marital_encoded_of (data : CreditInput) : Z :=
  if str_in (lower (marital_status data)) ["casado"; "married"]%string
  then 1 else 0.

(** [float(data.get(key, 0))]: the stored float, [float(0)] for an
    absent key, and [float(None)] raises. *)
Definition float_get (v : optional_float) : Py.result float :=
  match v with
  | Float x => Py.ok x
  | Absent => F64.of_int 0
  | PyNone => Py.raise Py.TypeError
  end.

Definition preprocess_features (data : CreditInput) : Py.result (list float) :=
  let marital_encoded := marital_encoded_of data in
  let active_debts := if active_debts data then 1 else 0 in
  let active_cards := if active_credit_cards data then 1 else 0 in
  f0 <- F64.of_int (age data) ;;
  let f1 := monthly_income data in
  let f2 := monthly_expense data in
  let f3 := debt_percentage data in
  f4 <- F64.of_int (previous_loans data) ;;
  f5 <- F64.of_int (late_payments data) ;;
  f6 <- F64.of_int marital_encoded ;;
  f7 <- F64.of_int active_debts ;;
  f8 <- F64.of_int active_cards ;;
  f9 <- float_get (payment_delay data) ;;
  f10 <- float_get (average_balance data) ;;
  Py.ok [f0; f1; f2; f3; f4; f5; f6; f7; f8; f9; f10].

(** ** Risk tiers *)

Definition get_risk_level (score : Z) : string :=
  if score <=? 40 then "riesgo alto"
  else if score <=? 70 then "riesgo medio"
  else "bajo riesgo".

(** The same three-way branch as it stands inside
    [predict_credit_score], as a function of the local [score]. *)
Definition risk_level_branch (score : Z) : string :=
  if score <=? 40 then "riesgo alto"
  else if score <=? 70 then "riesgo medio"
  else "bajo riesgo".

(** ** [analyze_risk_factors] *)

Record Factors : Type := {
  positive : list string;
  negative : list string;
  neutral : list string
}.

Definition no_factors : Factors :=
  {| positive := []; negative := []; neutral := [] |}.

Definition append_positive (f : Factors) (msg : string) : Factors :=
  {| positive := positive f ++ [msg]; negative := negative f; neutral := neutral f |}.
Definition append_negative (f : Factors) (msg : string) : Factors :=
  {| positive := positive f; negative := negative f ++ [msg]; neutral := neutral f |}.
Definition append_neutral (f : Factors) (msg : string) : Factors :=
  {| positive := positive f; negative := negative f; neutral := neutral f ++ [msg] |}.

Module Msg.
Definition ratio_healthy : string := "Relación ingresos/gastos saludable".
Definition expenses_high : string := "Gastos muy altos en relación a ingresos".
Definition debt_low : string := "Bajo nivel de endeudamiento".
Definition debt_high : string := "Alto nivel de endeudamiento".
Definition payments_perfect : string := "Historial de pagos perfecto".
Definition payments_late : string := "Múltiples retrasos en pagos".
Definition age_optimal : string := "Edad en rango óptimo para crédito".
Definition age_young : string := "Edad joven - historial crediticio limitado".
Definition loans_many : string := "Demasiados préstamos anteriores".
Definition loans_moderate : string := "Experiencia crediticia moderada".
End Msg.

Section Analyze.

(** The type of the [importance] dictionary; the function never reads
    it. *)
Context {Importance : Type}.

Definition analyze_risk_factors (data : CreditInput) (features : list float)
    (importance : Importance) : Py.result Factors :=
  let factors := no_factors in
  income_expense_ratio <- F64.div (monthly_income data) (monthly_expense data) ;;
  let factors :=
    if F64.gtb income_expense_ratio F64.f1_5 then
      append_positive factors Msg.ratio_healthy
    else if F64.ltb income_expense_ratio F64.f1_2 then
      append_negative factors Msg.expenses_high
    else factors in
  let factors :=
    if F64.ltb (debt_percentage data) F64.f30 then
      append_positive factors Msg.debt_low
    else if F64.gtb (debt_percentage data) F64.f60 then
      append_negative factors Msg.debt_high
    else factors in
  let factors :=
    if late_payments data =? 0 then
      append_positive factors Msg.payments_perfect
    else if late_payments data >? 2 then
      append_negative factors Msg.payments_late
    else factors in
  let factors :=
    if (25 <=? age data) && (age data <=? 55) then
      append_positive factors Msg.age_optimal
    else if age data <? 25 then
      append_neutral factors Msg.age_young
    else factors in
  let factors :=
    if previous_loans data >? 5 then
      append_negative factors Msg.loans_many
    else if (1 <=? previous_loans data) && (previous_loans data <=? 3) then
      append_positive factors Msg.loans_moderate
    else factors in
  Py.ok factors.

End Analyze.

(** ** Arrays *)

Abbreviation matrix := (list (list float)).

(** Elementwise binary operation on two arrays of the same length. *)
Fixpoint map2 {A B C} (f : A -> B -> C) (xs : list A) (ys : list B) : list C :=
  match xs, ys with
  | x :: xs', y :: ys' => f x y :: map2 f xs' ys'
  | _, _ => []
  end.

(** [np.column_stack]: the given columns become the columns of a matrix
    with one row per sample. *)
Fixpoint push_column (col : list float) (rows : matrix) : matrix :=
  match col, rows with
  | x :: col', r :: rows' => (x :: r) :: push_column col' rows'
  | _, _ => []
  end.

Definition column_stack (cols : list (list float)) : matrix :=
  match cols with
  | [] => []
  | c :: _ => fold_right push_column (repeat [] (length c)) cols
  end.

(** [a[i]]: indexing past the end raises. *)
Definition index {A} (l : list A) (i : nat) : Py.result A :=
  match nth_error l i with
  | Some x => Py.ok x
  | None => Py.raise Py.IndexError
  end.

(** ** The libraries the module calls *)

(** [numpy.random]: a global generator state; [seed] replaces it, every
    sampler draws [size] values and advances it. *)
Class NumpyRandom (RandomState : Type) : Type := {
  seed : Z -> RandomState;
  normal : float -> float -> Z -> RandomState -> list float * RandomState;
  lognormal : float -> float -> Z -> RandomState -> list float * RandomState;
  uniform : float -> float -> Z -> RandomState -> list float * RandomState;
  beta : float -> float -> Z -> RandomState -> list float * RandomState;
  poisson : float -> Z -> RandomState -> list Z * RandomState;
  binomial : Z -> float -> Z -> RandomState -> list Z * RandomState;
  exponential : float -> Z -> RandomState -> list float * RandomState
}.

(** [sklearn]: a fitted [StandardScaler] and a fitted
    [RandomForestClassifier].  [transform] and [predict_proba] validate
    the matrix they are passed and raise [ValueError] on one they do not
    accept (an infinite entry, an entry too large for the classifier's
    float32); [scaler_accepts] and [forest_accepts] tell whether that
    validation passes, and [scaler_transform] and [forest_predict_proba]
    are what the calls return when it does. *)
Class Sklearn (Scaler Classifier : Type) : Type := {
  scaler_fit : matrix -> Scaler;
  scaler_transform : Scaler -> matrix -> matrix;
  scaler_accepts : Scaler -> matrix -> bool;
  forest_fit : forall (n_estimators max_depth random_state : Z)
                 (class_weight : string), matrix -> list Z -> Classifier;
  forest_predict_proba : Classifier -> matrix -> matrix;
  forest_accepts : Classifier -> matrix -> bool;
  forest_feature_importances : Classifier -> list float
}.

(** ** The synthetic corpus *)

Section Corpus.

Context {RandomState : Type} `{NumpyRandom RandomState}.

(** A computation that draws from the global generator. *)
Definition Rand (A : Type) : Type := RandomState -> A * RandomState.

Definition rret {A} (a : A) : Rand A := fun g => (a, g).
Definition rbind {A B} (c : Rand A) (k : A -> Rand B) : Rand B :=
  fun g => let (a, g') := c g in k a g'.

Local Notation "x <~ c ;; k" := (rbind c (fun x => k))
  (at level 100, c at next level, right associativity).

(** [np.random.seed(s)] *)
Definition random_seed (s : Z) : Rand unit := fun _ => (tt, seed s).

Definition clip (lo hi : float) (xs : list float) : list float :=
  map (fun x => F64.minimum (F64.maximum x lo) hi) xs.

(** [mask * w] for a boolean array and a float. *)
Definition weigh (mask : list bool) (w : float) : list float :=
  map (fun b => F64.mul (F64.of_bool b) w) mask.

Definition vadd : list float -> list float -> list float := map2 F64.add.
Definition vmul : list float -> list float -> list float := map2 F64.mul.
Definition vdiv : list float -> list float -> list float :=
  map2 (SFdiv F64.prec F64.emax).
Definition as_float : list Z -> list float := map F64.of_Z.

(** The body of [create_training_data], with its two constants
    [np.random.seed(42)] and [n_samples = 1000] named. *)
Definition create_training_data_with (seed_value n_samples : Z)
  : Rand (matrix * list Z) :=
  _ <~ random_seed seed_value ;;
  ages <~ normal (F64.of_Z 35) (F64.of_Z 12) n_samples ;;
  let ages := clip (F64.of_Z 18) (F64.of_Z 80) ages in
  incomes <~ lognormal (F64.of_Z 9) F64.f0_8 n_samples ;;
  u <~ uniform F64.f0_3 F64.f0_9 n_samples ;;
  let expenses := vmul incomes u in
  b <~ beta (F64.of_Z 2) (F64.of_Z 5) n_samples ;;
  let debt_percentages := map (fun x => F64.mul x F64.f100) b in
  previous_loans <~ poisson (F64.of_Z 2) n_samples ;;
  late_payments <~ poisson (F64.of_Z 1) n_samples ;;
  marital_encoded <~ binomial 1 F64.f0_6 n_samples ;;
  active_debts <~ binomial 1 F64.f0_4 n_samples ;;
  active_cards <~ binomial 1 F64.f0_7 n_samples ;;
  payment_delays <~ exponential (F64.of_Z 5) n_samples ;;
  balances <~ lognormal (F64.of_Z 7) (F64.of_Z 1) n_samples ;;
  let X := column_stack [
    ages;
    incomes;
    expenses;
    debt_percentages;
    as_float previous_loans;
    as_float late_payments;
    as_float marital_encoded;
    as_float active_debts;
    as_float active_cards;
    payment_delays;
    balances
  ] in
  noise <~ normal F64.zero F64.f0_1 n_samples ;;
  let risk_score :=
    vadd (vadd (vadd (vadd (vadd
      (weigh (map (fun d => F64.gtb d F64.f50) debt_percentages) F64.f0_3)
      (weigh (map (fun l => l >? 2) late_payments) F64.f0_4))
      (weigh (map (fun r => F64.gtb r F64.f0_8) (vdiv expenses incomes)) F64.f0_2))
      (weigh (map (fun l => l >? 3) previous_loans) F64.f0_1))
      (weigh (map (fun d => F64.gtb d (F64.of_Z 10)) payment_delays) F64.f0_2))
      noise in
  let y := map (fun r => if F64.gtb r F64.f0_5 then 1 else 0) risk_score in
  rret (X, y).

Definition create_training_data : Rand (matrix * list Z) :=
  create_training_data_with 42 1000.

End Corpus.

(** ** The artifact store and the scorer *)

Definition MODEL_PATH : string := "credit_model.pkl".
Definition SCALER_PATH : string := "scaler.pkl".

(** What a call of [joblib.dump] does to the disk: it completes, it
    fails before the target is opened, or it fails after the target was
    opened for writing and leaves a partial file. *)
Inductive write_outcome : Set :=
| WriteOk
| WriteFailsUnopened
| WriteFailsPartial.

Section Engine.

Context {RandomState Scaler Classifier : Type}.
Context `{NumpyRandom RandomState} `{Sklearn Scaler Classifier}.

(** A Python object that the store holds and [joblib.load] returns. *)
Inductive pyobj : Type :=
| PModel (m : Classifier)
| PScaler (s : Scaler).

(** The content of a file: a complete pickle, or a partial one. *)
Inductive blob : Type :=
| Pickled (o : pyobj)
| Truncated.

(** The state the module acts on: the files of the working directory,
    numpy's global generator, and the outcomes of the writes to come
    (a write past the end of the list completes). *)
Record World : Type := {
  files : gmap string blob;
  rng : RandomState;
  disk : list write_outcome
}.

Definition IO (A : Type) : Type := World -> Py.result A * World.

Definition ret {A} (a : A) : IO A := fun w => (Py.ok a, w).
Definition throw {A} (e : Py.exn) : IO A := fun w => (Py.raise e, w).
Definition lift {A} (r : Py.result A) : IO A := fun w => (r, w).

(** Sequencing: an exception skips the rest and keeps the state reached
    so far. *)
Definition io_bind {A B} (c : IO A) (k : A -> IO B) : IO B :=
  fun w =>
    match c w with
    | (inl e, w') => (inl e, w')
    | (inr a, w') => k a w'
    end.

Local Notation "x <-- c ;; k" := (io_bind c (fun x => k))
  (at level 100, c at next level, right associativity).

Definition with_rng {A} (c : Rand A) : IO A :=
  fun w =>
    let (a, g) := c (rng w) in
    (Py.ok a, {| files := files w; rng := g; disk := disk w |}).

(** [os.path.exists] *)
Definition path_exists (path : string) : IO bool :=
  fun w => (Py.ok (bool_decide (is_Some (files w !! path))), w).

(** [joblib.load] *)
Definition joblib_load (path : string) : IO pyobj :=
  fun w =>
    match files w !! path with
    | Some (Pickled o) => (Py.ok o, w)
    | Some Truncated => (Py.raise Py.LoadError, w)
    | None => (Py.raise Py.OSError, w)
    end.

(** [joblib.dump]: writes the target file in place. *)
Definition joblib_dump (o : pyobj) (path : string) : IO unit :=
  fun w =>
    match disk w with
    | [] =>
        (Py.ok tt, {| files := <[path := Pickled o]> (files w);
                      rng := rng w; disk := [] |})
    | WriteOk :: rest =>
        (Py.ok tt, {| files := <[path := Pickled o]> (files w);
                      rng := rng w; disk := rest |})
    | WriteFailsUnopened :: rest =>
        (Py.raise Py.OSError, {| files := files w; rng := rng w; disk := rest |})
    | WriteFailsPartial :: rest =>
        (Py.raise Py.OSError, {| files := <[path := Truncated]> (files w);
                                 rng := rng w; disk := rest |})
    end.

(** [train_model] (the two progress messages it prints are left out). *)
Definition train_model : IO (pyobj * pyobj) :=
  Xy <-- with_rng create_training_data ;;
  let '(X, y) := Xy in
  let scaler := scaler_fit X in
  let X_scaled := scaler_transform scaler X in
  let model := forest_fit 100 10 42 "balanced" X_scaled y in
  _ <-- joblib_dump (PModel model) MODEL_PATH ;;
  _ <-- joblib_dump (PScaler scaler) SCALER_PATH ;;
  ret (PModel model, PScaler scaler).

Definition load_model : IO (pyobj * pyobj) :=
  model_exists <-- path_exists MODEL_PATH ;;
  scaler_exists <-- path_exists SCALER_PATH ;;
  if model_exists && scaler_exists then
    model <-- joblib_load MODEL_PATH ;;
    scaler <-- joblib_load SCALER_PATH ;;
    ret (model, scaler)
  else
    train_model.

(** Method calls on loaded objects: an object of the other class has
    no such attribute, and a matrix that the library does not accept
    makes the call raise [ValueError]. *)
Definition transform (scaler : pyobj) (X : matrix) : Py.result matrix :=
  match scaler with
  | PScaler s =>
      if scaler_accepts s X then Py.ok (scaler_transform s X)
      else Py.raise Py.ValueError
  | PModel _ => Py.raise Py.AttributeError
  end.

Definition predict_proba (model : pyobj) (X : matrix) : Py.result matrix :=
  match model with
  | PModel m =>
      if forest_accepts m X then Py.ok (forest_predict_proba m X)
      else Py.raise Py.ValueError
  | PScaler _ => Py.raise Py.AttributeError
  end.

Definition feature_importances_ (model : pyobj) : Py.result (list float) :=
  match model with
  | PModel m => Py.ok (forest_feature_importances m)
  | PScaler _ => Py.raise Py.AttributeError
  end.

Definition feature_names : list string :=
  ["edad"; "ingresos_mensuales"; "gastos_mensuales"; "porcentaje_deuda";
   "prestamos_anteriores"; "pagos_tardios"; "estado_civil"; "deudas_activas";
   "tarjetas_credito"; "retraso_pagos"; "saldo_promedio"]%string.

(** The scoring steps of [predict_credit_score] once [load_model] has
    returned [(model, scaler)]. *)
Definition score_with (model scaler : pyobj) (data : CreditInput)
  : Py.result (Z * string * Factors) :=
  features <- preprocess_features data ;;
  features_scaled <- transform scaler [features] ;;
  probas <- predict_proba model features_scaled ;;
  proba <- index probas 0 ;;
  good_credit_prob <- index proba 0 ;;
  score <- F64.to_int (F64.mul good_credit_prob F64.f100) ;;
  let risk_level := risk_level_branch score in
  importances <- feature_importances_ model ;;
  let feature_impact := combine feature_names importances in
  factors <- analyze_risk_factors data features feature_impact ;;
  Py.ok (score, risk_level, factors).

Definition predict_credit_score (data : CreditInput)
  : IO (Z * string * Factors) :=
  loaded <-- load_model ;;
  let '(model, scaler) := loaded in
  lift (score_with model scaler data).

End Engine.

(** ** The rule table of the analyzer, as the specification lists it *)

Inductive bucket : Set := Positive | Negative | Neutral.

Definition bucket_eqb (a b : bucket) : bool :=
  match a, b with
  | Positive, Positive | Negative, Negative | Neutral, Neutral => true
  | _, _ => false
  end.

(** A row: its condition on the record and on the income/expense ratio,
    its bucket and its message. *)
Record rule : Type := {
  rule_cond : CreditInput -> float -> bool;
  rule_bucket : bucket;
  rule_message : string
}.

Definition rule_table : list rule := [
  {| rule_cond := fun _ ratio => F64.gtb ratio F64.f1_5;
     rule_bucket := Positive; rule_message := Msg.ratio_healthy |};
  {| rule_cond := fun _ ratio => F64.ltb ratio F64.f1_2;
     rule_bucket := Negative; rule_message := Msg.expenses_high |};
  {| rule_cond := fun d _ => F64.ltb (debt_percentage d) F64.f30;
     rule_bucket := Positive; rule_message := Msg.debt_low |};
  {| rule_cond := fun d _ => F64.gtb (debt_percentage d) F64.f60;
     rule_bucket := Negative; rule_message := Msg.debt_high |};
  {| rule_cond := fun d _ => late_payments d =? 0;
     rule_bucket := Positive; rule_message := Msg.payments_perfect |};
  {| rule_cond := fun d _ => late_payments d >? 2;
     rule_bucket := Negative; rule_message := Msg.payments_late |};
  {| rule_cond := fun d _ => (25 <=? age d) && (age d <=? 55);
     rule_bucket := Positive; rule_message := Msg.age_optimal |};
  {| rule_cond := fun d _ => age d <? 25;
     rule_bucket := Neutral; rule_message := Msg.age_young |};
  {| rule_cond := fun d _ => previous_loans d >? 5;
     rule_bucket := Negative; rule_message := Msg.loans_many |};
  {| rule_cond := fun d _ => (1 <=? previous_loans d) && (previous_loans d <=? 3);
     rule_bucket := Positive; rule_message := Msg.loans_moderate |}
].

(** The messages of the rows of one bucket whose condition holds, in the
    order of the table. *)
Definition table_messages (b : bucket) (d : CreditInput) (ratio : float)
  : list string :=
  map rule_message
    (List.filter (fun r => bucket_eqb (rule_bucket r) b && rule_cond r d ratio)
       rule_table).

Definition table_factors (d : CreditInput) : Factors :=
  let ratio := SFdiv F64.prec F64.emax (monthly_income d) (monthly_expense d) in
  {| positive := table_messages Positive d ratio;
     negative := table_messages Negative d ratio;
     neutral := table_messages Neutral d ratio |}.

(** ** The input contract *)

(** [x > 0] on floats. *)
Definition float_pos (x : float) : bool := F64.gtb x F64.zero.

(** [0 <= x <= 100] on floats. *)
Definition float_percent (x : float) : bool :=
  F64.leb F64.zero x && F64.leb x F64.f100.

(** The constraints that the specification puts on an applicant record. *)
Definition input_contract (d : CreditInput) : Prop :=
  0 < age d /\
  float_pos (monthly_income d) = true /\
  float_pos (monthly_expense d) = true /\
  float_percent (debt_percentage d) = true /\
  0 <= previous_loans d /\
  0 <= late_payments d.

(** The integers that [float] converts without overflow: the largest
    double is [2^1024 - 2^971], and everything from half an ulp above it
    rounds out of range. *)
Definition double_limit : Z := 2 ^ 1024 - 2 ^ 970.

Definition in_double_range (n : Z) : Prop := Z.abs n < double_limit.

(** The integer fields of a record all convert. *)
Definition counts_in_double_range (d : CreditInput) : Prop :=
  in_double_range (age d) /\
  in_double_range (previous_loans d) /\
  in_double_range (late_payments d).

(** The two optional fields are absent or hold a float. *)
Definition optional_fields_typed (d : CreditInput) : Prop :=
  payment_delay d <> PyNone /\ average_balance d <> PyNone.

(** A record that [preprocess_features] can encode. *)
Definition encodable (d : CreditInput) : Prop :=
  counts_in_double_range d /\ optional_fields_typed d.

(** A probability as a classifier reports it: a double between 0 and 1. *)
Definition is_probability (p : float) : Prop :=
  F64.valid p = true /\ F64.leb F64.zero p = true /\ F64.leb p F64.one = true.

(** ** Case-insensitive comparison with a lowercase keyword *)

Definition is_upper (c : ascii) : bool :=
  ((65 <=? nat_of_ascii c)%nat && (nat_of_ascii c <=? 90)%nat)%bool.

(** [a] is [k], or the capital letter of which [k] is the small one. *)
Definition same_letter (a k : ascii) : bool :=
  (Ascii.eqb a k
   || (is_upper a && (nat_of_ascii a + 32 =? nat_of_ascii k)%nat))%bool.

Fixpoint matches_nocase (s k : string) : bool :=
  match s, k with
  | EmptyString, EmptyString => true
  | String a s', String b k' => same_letter a b && matches_nocase s' k'
  | _, _ => false
  end.

(** ** Stand-ins for the libraries

    Small deterministic implementations of the two library interfaces,
    on which the functions above can be run. *)

Module Demo.

(** A sampler that returns [size] copies of one value and steps the
    generator. *)
Definition constant_draw {A} (x : A) (size : Z) (g : Z) : list A * Z :=
  (repeat x (Z.to_nat size), g + 1).

#[global] Instance numpy : NumpyRandom Z := {|
  seed := fun s => s;
  normal := fun loc _ size => constant_draw loc size;
  lognormal := fun _ _ size => constant_draw F64.one size;
  uniform := fun low _ size => constant_draw low size;
  beta := fun _ _ size => constant_draw F64.f0_5 size;
  poisson := fun _ size => constant_draw 1 size;
  binomial := fun n _ size => constant_draw n size;
  exponential := fun scale size => constant_draw scale size
|}.

(** A matrix with finite entries only. *)
Definition all_finite (X : matrix) : bool := forallb (forallb F64.is_finite) X.

(** The scaler is the identity; a classifier is the probability of good
    credit that it reports for every sample; both accept the matrices
    whose entries are all finite. *)
#[global] Instance sklearn : Sklearn unit float := {|
  scaler_fit := fun _ => tt;
  scaler_transform := fun _ X => X;
  scaler_accepts := fun _ X => all_finite X;
  forest_fit := fun _ _ _ _ _ _ => F64.f0_5;
  forest_predict_proba := fun p X => map (fun _ => [p; F64.f0_5]) X;
  forest_accepts := fun _ X => all_finite X;
  forest_feature_importances := fun _ => []
|}.

(** The applicant of the specification's first example. *)
Definition applicant : CreditInput := {|
  name := "Ana";
  age := 30;
  marital_status := "casado";
  gender := None;
  nationality := "AR";
  monthly_income := F64.of_Z 3000;
  monthly_expense := F64.of_Z 1200;
  debt_percentage := F64.of_Z 20;
  active_debts := false;
  previous_loans := 2;
  late_payments := 0;
  active_credit_cards := true;
  spending_behavior := "moderado";
  payment_delay := Absent;
  average_balance := Absent
|}.

(** The same applicant with a loan count that no double can hold. *)
Definition applicant_huge_count : CreditInput := {|
  name := "Ana";
  age := 30;
  marital_status := "casado";
  gender := None;
  nationality := "AR";
  monthly_income := F64.of_Z 3000;
  monthly_expense := F64.of_Z 1200;
  debt_percentage := F64.of_Z 20;
  active_debts := false;
  previous_loans := 2 ^ 1024;
  late_payments := 0;
  active_credit_cards := true;
  spending_behavior := "moderado";
  payment_delay := Absent;
  average_balance := Absent
|}.

(** A store that holds a classifier and a scaler from an earlier run. *)
Definition old_model : pyobj (Scaler := unit) (Classifier := float) :=
  PModel F64.f0_9.
Definition old_scaler : pyobj (Scaler := unit) (Classifier := float) :=
  PScaler tt.

Definition stored_files : gmap string (blob (Scaler := unit) (Classifier := float)) :=
  <[SCALER_PATH := Pickled old_scaler]> (<[MODEL_PATH := Pickled old_model]> ∅).

Definition world (fs : gmap string (blob (Scaler := unit) (Classifier := float)))
    (faults : list write_outcome) : World :=
  {| files := fs; rng := 7; disk := faults |}.

End Demo.

(** ** The training sequence, step by step

    What one run of training produces from the state [g] of the
    generator: the corpus, the scaler fitted on it, the classifier fitted
    on the scaled corpus. *)

Section Training.

Context {RandomState Scaler Classifier : Type}.
Context `{NumpyRandom RandomState} `{Sklearn Scaler Classifier}.

Definition fresh_corpus (g : RandomState) : matrix * list Z :=
  fst (create_training_data g).

Definition fresh_scaler (g : RandomState) : Scaler :=
  scaler_fit (fst (fresh_corpus g)).

Definition fresh_model (g : RandomState) : Classifier :=
  forest_fit 100 10 42 "balanced"
    (scaler_transform (fresh_scaler g) (fst (fresh_corpus g)))
    (snd (fresh_corpus g)).

Definition rng_after_training (g : RandomState) : RandomState :=
  snd (create_training_data g).

(** The next [n] writes complete. *)
Fixpoint writes_complete (n : nat) (faults : list write_outcome) : bool :=
  match n, faults with
  | O, _ => true
  | S _, [] => true
  | S n', WriteOk :: rest => writes_complete n' rest
  | S _, _ :: _ => false
  end.

(** A failed run of [train_model] leaves both artifact files as they
    were. *)
Definition pair_survives_failure (w : World) : Prop :=
  forall (e : Py.exn) (w' : World),
    train_model w = (inl e, w') ->
    files w' !! MODEL_PATH = files w !! MODEL_PATH /\
    files w' !! SCALER_PATH = files w !! SCALER_PATH.

End Training.

(** ** The feature vector, as the specification documents it *)

(** An optional field, 0 when absent. *)
Definition default_zero (v : optional_float) : float :=
  match v with
  | Float x => x
  | Absent | PyNone => F64.zero
  end.

(** The eleven features in their fixed order: age, income, expense,
    debt percentage, previous loans, late payments, marital status
    (1 for "casado" or "married" in any letter case), active debts,
    active cards, payment delay, average balance. *)
Definition encoded_vector (d : CreditInput) : list float :=
  [ F64.of_Z (age d);
    monthly_income d;
    monthly_expense d;
    debt_percentage d;
    F64.of_Z (previous_loans d);
    F64.of_Z (late_payments d);
    F64.of_bool (matches_nocase (marital_status d) "casado"
                 || matches_nocase (marital_status d) "married");
    F64.of_bool (active_debts d);
    F64.of_bool (active_credit_cards d);
    default_zero (payment_delay d);
    default_zero (average_balance d) ].

(** No capital letter occurs in a keyword. *)
Fixpoint no_upper (k : string) : bool :=
  match k with
  | EmptyString => true
  | String c k' => negb (is_upper c) && no_upper k'
  end.

(** ** What the loaded artifacts do on a feature vector *)

Section Behaviour.

Context {Scaler Classifier : Type} `{Sklearn Scaler Classifier}.

(** The scaler accepts the feature vector, the classifier accepts the
    scaled one, and [p] is the first entry of the first row that the
    classifier reports for it: the probability of class 0. *)
Definition class0_probability (model : Classifier) (scaler : Scaler)
    (features : list float) (p : float) : Prop :=
  scaler_accepts scaler [features] = true /\
  forest_accepts model (scaler_transform scaler [features]) = true /\
  exists (rest : list float) (more : matrix),
    forest_predict_proba model (scaler_transform scaler [features])
    = (p :: rest) :: more.

End Behaviour.

(** ** Rounding to binary64, step by step *)

(** The exponent that the format gives to a number of magnitude [2^e]. *)
Definition fexp64 (e : Z) : Z := Z.max (e - 53) (-1074).


(** The record reached from the mantissa [m0], taken as exact, after [k]
    halvings: the quotient, the last bit shifted out, and whether any
    earlier bit shifted out was set. *)
Definition shifted (m0 k : Z) (mrs : shr_record) : Prop :=
  if k =? 0 then mrs = Build_shr_record m0 false false
  else shr_m mrs = m0 / 2 ^ k /\
       shr_r mrs = Z.testbit m0 (k - 1) /\
       shr_s mrs = negb (m0 mod 2 ^ (k - 1) =? 0).

(** The float built at the end of rounding. *)
Definition pack (s : bool) (m e : Z) : spec_float :=
  match m with
  | Z0 => S754_zero s
  | Zpos p => if e <=? 971 then S754_finite s p e else S754_infinity s
  | Zneg _ => S754_nan
  end.


(** * The caller: [main.py] and [train_model.py] *)

(** ** [generate_explanation] *)

(** [str(n)] for an [int]. *)
Definition str_of_int (n : Z) : string := NilZero.string_of_int (Z.to_int n).

(** The line feed. *)
Definition nl : string := String (ascii_of_nat 10) EmptyString.

(** One [for factor in ...: explanation += ...] loop. *)
Definition add_bullets (explanation : string) (items : list string) : string :=
  fold_left (fun e factor => (e ++ "• " ++ factor ++ nl)%string) items explanation.

(** One [if factors[...]:] block: nothing for an empty list, otherwise
    the header line, a bullet line per factor and an empty line. *)
Definition add_section (explanation header : string) (items : list string)
  : string :=
  match items with
  | [] => explanation
  | _ :: _ => (add_bullets (explanation ++ header ++ nl) items ++ nl)%string
  end.

Definition generate_explanation (name : string) (score : Z)
    (risk_level : string) (factors : Factors) : string :=
  let explanation :=
    (name ++ ": " ++ risk_level ++ " (score " ++ str_of_int score ++ "/100)"
     ++ nl ++ nl)%string in
  let explanation :=
    add_section explanation "✅ Factores positivos:" (positive factors) in
  let explanation :=
    add_section explanation "⚠️ Factores de riesgo:" (negative factors) in
  let explanation :=
    add_section explanation "ℹ️ Consideraciones adicionales:" (neutral factors) in
  if score <=? 40 then
    (explanation ++ "💡 Recomendaciones:" ++ nl
     ++ "• Reducir el nivel de endeudamiento" ++ nl
     ++ "• Mejorar el historial de pagos" ++ nl
     ++ "• Aumentar los ingresos o reducir gastos" ++ nl)%string
  else if score <=? 70 then
    (explanation ++ "💡 Sugerencias para mejorar:" ++ nl
     ++ "• Mantener un buen historial de pagos" ++ nl
     ++ "• Considerar reducir deudas existentes" ++ nl)%string
  else
    (explanation ++ "🎉 Excelente perfil crediticio. Mantener las buenas prácticas financieras.")%string.

(** The closing advice that goes with each risk level. *)
Definition advice_for_level (risk_level : string) : string :=
  if String.eqb risk_level "riesgo alto" then
    ("💡 Recomendaciones:" ++ nl
     ++ "• Reducir el nivel de endeudamiento" ++ nl
     ++ "• Mejorar el historial de pagos" ++ nl
     ++ "• Aumentar los ingresos o reducir gastos" ++ nl)%string
  else if String.eqb risk_level "riesgo medio" then
    ("💡 Sugerencias para mejorar:" ++ nl
     ++ "• Mantener un buen historial de pagos" ++ nl
     ++ "• Considerar reducir deudas existentes" ++ nl)%string
  else
    "🎉 Excelente perfil crediticio. Mantener las buenas prácticas financieras."%string.

(** [t] begins with, ends with, contains [s]. *)
Definition starts_with (s t : string) : Prop := exists rest, t = (s ++ rest)%string.
Definition ends_with (s t : string) : Prop := exists front, t = (front ++ s)%string.
Definition occurs_in (s t : string) : Prop :=
  exists front rest, t = (front ++ s ++ rest)%string.

(** ** The [/score] endpoint *)

(** [x >= y] on floats. *)
Definition float_geb (x y : float) : bool :=
  match SFcompare x y with
  | Some (Gt | Eq) => true
  | _ => false
  end.

Record CreditScoreResponse : Type := {
  response_name : string;
  response_risk_level : string;
  response_score : Z;
  response_explanation : string;
  response_factors : Factors
}.

(** What a call of the endpoint produces: the response body, or a raised
    [HTTPException]. *)
Inductive http_result : Type :=
| Returned (r : CreditScoreResponse)
| HTTPException (status_code : Z) (detail : string).

(** A row of [credit_applications] (without its generated id and
    timestamp). *)
Record CreditApplication : Type := {
  application_data : CreditInput;
  application_score : Z;
  application_risk_level : string
}.

(** [credit_data.model_dump()]: every field is a key of the dictionary; a
    field that the request left out holds the default 0 of the schema. *)
Definition dump_optional (v : optional_float) : optional_float :=
  match v with
  | Absent => Float F64.zero
  | _ => v
  end.

Definition model_dump (c : CreditInput) : CreditInput :=
  {| name := name c;
     age := age c;
     marital_status := marital_status c;
     gender := gender c;
     nationality := nationality c;
     monthly_income := monthly_income c;
     monthly_expense := monthly_expense c;
     debt_percentage := debt_percentage c;
     active_debts := active_debts c;
     previous_loans := previous_loans c;
     late_payments := late_payments c;
     active_credit_cards := active_credit_cards c;
     spending_behavior := spending_behavior c;
     payment_delay := dump_optional (payment_delay c);
     average_balance := dump_optional (average_balance c) |}.

(** The numeric [Field] constraints of [schemas.CreditInput]. *)
Definition schema_numeric (c : CreditInput) : Prop :=
  0 < age c <= 120 /\
  float_pos (monthly_income c) = true /\
  float_pos (monthly_expense c) = true /\
  float_percent (debt_percentage c) = true /\
  0 <= previous_loans c /\
  0 <= late_payments c /\
  (forall x, payment_delay c = Float x -> F64.leb F64.zero x = true) /\
  (forall x, average_balance c = Float x -> F64.leb F64.zero x = true).

Section Api.

Context {RandomState Scaler Classifier : Type}.
Context `{NumpyRandom RandomState} `{Sklearn Scaler Classifier}.

(** The state of the service: the state the scoring module acts on, the
    rows of the table, and for each commit to come whether it fails (a
    commit past the end of the list succeeds). *)
Record Server : Type := {
  world : @World RandomState Scaler Classifier;
  applications : list CreditApplication;
  commits : list bool
}.

(** [db.add(db_application); db.commit()] inside its own
    [try ... except Exception]: a failure is logged and dropped. *)
Definition save_application (row : CreditApplication)
    (w : @World RandomState Scaler Classifier) (s : Server) : Server :=
  match commits s with
  | true :: rest => {| world := w; applications := applications s; commits := rest |}
  | false :: rest =>
      {| world := w; applications := applications s ++ [row]; commits := rest |}
  | [] => {| world := w; applications := applications s ++ [row]; commits := [] |}
  end.

(** [calculate_credit_score] (log lines are left out). *)
Definition calculate_credit_score (credit_data : CreditInput) (s : Server)
  : http_result * Server :=
  if float_geb (monthly_expense credit_data) (monthly_income credit_data) then
    (HTTPException 400
       "Los gastos mensuales no pueden ser mayores o iguales a los ingresos", s)
  else if age credit_data <? 18 then
    (HTTPException 400 "El solicitante debe ser mayor de edad", s)
  else
    let data_dict := model_dump credit_data in
    match predict_credit_score data_dict (world s) with
    | (inl _, w) =>
        (HTTPException 500 "Error interno del servidor al procesar la solicitud",
         {| world := w; applications := applications s; commits := commits s |})
    | (inr (score, risk_level, factors), w) =>
        let explanation :=
          generate_explanation (name credit_data) score risk_level factors in
        let s' :=
          save_application
            {| application_data := data_dict;
               application_score := score;
               application_risk_level := risk_level |} w s in
        (Returned {| response_name := name credit_data;
                     response_risk_level := risk_level;
                     response_score := score;
                     response_explanation := explanation;
                     response_factors := factors |}, s')
    end.

(** ** [train_model.py]

    [main]: runs [train_model]; an exception ends the process with
    status 1, otherwise it ends with status 0. *)
Definition train_script (w : World) : Z * World :=
  match train_model w with
  | (inl _, w') => (1, w')
  | (inr _, w') => (0, w')
  end.

End Api.

(** ** What numpy's samplers are assumed to return *)

Section Samplers.

Context {RandomState : Type} `{NumpyRandom RandomState}.

(** Every sampler returns as many values as it is asked for. *)
Definition sized_draws : Prop :=
  forall (a b : float) (k : Z) (size : Z) (g : RandomState),
    length (fst (normal a b size g)) = Z.to_nat size /\
    length (fst (lognormal a b size g)) = Z.to_nat size /\
    length (fst (uniform a b size g)) = Z.to_nat size /\
    length (fst (beta a b size g)) = Z.to_nat size /\
    length (fst (poisson a size g)) = Z.to_nat size /\
    length (fst (binomial k a size g)) = Z.to_nat size /\
    length (fst (exponential a size g)) = Z.to_nat size.

End Samplers.

(** A feature that [np.clip] has passed: NaN, or between the bounds. *)
Definition within (lo hi x : float) : Prop :=
  x = S754_nan \/ (F64.leb lo x = true /\ F64.leb x hi = true).


(** ** Further example states *)

(** A store whose classifier file was left partial by a failed write. *)
Definition partial_files
  : gmap string (blob (Scaler := unit) (Classifier := float)) :=
  <[SCALER_PATH := Pickled Demo.old_scaler]> (<[MODEL_PATH := Truncated]> ∅).

(** The example applicant, sent with [payment_delay] set to [null]. *)
Definition applicant_null_delay : CreditInput := {|
  name := "Ana";
  age := 30;
  marital_status := "casado";
  gender := None;
  nationality := "AR";
  monthly_income := F64.of_Z 3000;
  monthly_expense := F64.of_Z 1200;
  debt_percentage := F64.of_Z 20;
  active_debts := false;
  previous_loans := 2;
  late_payments := 0;
  active_credit_cards := true;
  spending_behavior := "moderado";
  payment_delay := PyNone;
  average_balance := Absent
|}.

(** The example applicant at the age of 17. *)
Definition applicant_minor : CreditInput := {|
  name := "Ana";
  age := 17;
  marital_status := "casado";
  gender := None;
  nationality := "AR";
  monthly_income := F64.of_Z 3000;
  monthly_expense := F64.of_Z 1200;
  debt_percentage := F64.of_Z 20;
  active_debts := false;
  previous_loans := 2;
  late_payments := 0;
  active_credit_cards := true;
  spending_behavior := "moderado";
  payment_delay := Absent;
  average_balance := Absent
|}.

(** A service over the example store, with no rows yet. *)
Definition server (faults : list write_outcome) (commit_failures : list bool)
  : Server (RandomState := Z) (Scaler := unit) (Classifier := float) :=
  {| world := Demo.world Demo.stored_files faults;
     applications := [];
     commits := commit_failures |}.

(** * Properties *)

(** ** Risk tiers *)

(** C1: for every integer score between 0 and 100 the tier assigned
    inside [predict_credit_score] follows the fixed thresholds: at most
    40 is "riesgo alto", 41 to 70 is "riesgo medio", above 70 is "bajo
    riesgo"; 40 maps to alto, 41 and 70 to medio, 71 to bajo.  The
    standalone [get_risk_level] obeys the same table. *)
Theorem risk_level_thresholds (score : Z) :
  0 <= score <= 100 ->
  (score <= 40 -> risk_level_branch score = "riesgo alto"
                  /\ get_risk_level score = "riesgo alto") /\
  (41 <= score <= 70 -> risk_level_branch score = "riesgo medio"
                        /\ get_risk_level score = "riesgo medio") /\
  (70 < score -> risk_level_branch score = "bajo riesgo"
                 /\ get_risk_level score = "bajo riesgo") /\
  risk_level_branch 40 = "riesgo alto" /\
  risk_level_branch 41 = "riesgo medio" /\
  risk_level_branch 70 = "riesgo medio" /\
  risk_level_branch 71 = "bajo riesgo".
Proof.
  intros _. unfold risk_level_branch, get_risk_level.
  split; [| split; [| split; [| repeat split]]]; intros Hs.
  - destruct (Z.leb_spec score 40); [split; reflexivity | lia].
  - destruct (Z.leb_spec score 40); [lia |].
    destruct (Z.leb_spec score 70); [split; reflexivity | lia].
  - destruct (Z.leb_spec score 40); [lia |].
    destruct (Z.leb_spec score 70); [lia | split; reflexivity].
Qed.

Lemma risk_level_thresholds_witness :
  0 <= 55 <= 100 /\ risk_level_branch 55 = "riesgo medio".
Proof.
  split; [lia |].
  apply (risk_level_thresholds 55); lia.
Defined.

(** C10: the branch inside [predict_credit_score] and [get_risk_level]
    return the same string for every integer score. *)
Theorem risk_level_branch_equiv (score : Z) :
  risk_level_branch score = get_risk_level score.
Proof.
  unfold risk_level_branch, get_risk_level.
  destruct (score <=? 40); [reflexivity |].
  destruct (score <=? 70); reflexivity.
Qed.

(** The tier is one of the three strings, whatever the score. *)
Lemma risk_level_branch_cases (score : Z) :
  risk_level_branch score = "riesgo alto" \/
  risk_level_branch score = "riesgo medio" \/
  risk_level_branch score = "bajo riesgo".
Proof.
  unfold risk_level_branch.
  destruct (score <=? 40); [auto |].
  destruct (score <=? 70); auto.
Qed.

(** ** The analyzer *)

(** Comparison of two positive finite floats, read off exponent and
    mantissa. *)
Lemma ltb_finite_pos (m1 m2 : Pos.t) (e1 e2 : Z) :
  SFltb (S754_finite false m1 e1) (S754_finite false m2 e2)
  = (e1 <? e2) || ((e1 =? e2) && (Z.pos m1 <? Z.pos m2)).
Proof.
  unfold SFltb, SFcompare.
  change (Pos.compare_cont Eq m1 m2) with (Z.pos m1 ?= Z.pos m2).
  destruct (Z.compare_spec e1 e2) as [He | He | He].
  - subst e2. rewrite Z.ltb_irrefl, Z.eqb_refl.
    unfold Z.ltb. destruct (Z.pos m1 ?= Z.pos m2); reflexivity.
  - apply Z.ltb_lt in He. rewrite He. reflexivity.
  - assert (H1 : (e1 <? e2) = false) by (apply Z.ltb_ge; lia).
    assert (H2 : (e1 =? e2) = false) by (apply Z.eqb_neq; lia).
    rewrite H1, H2. reflexivity.
Qed.

(** Decides a goal made of integer comparisons by cases. *)
Ltac zcases :=
  repeat match goal with
  | |- context [?a <? ?b] => destruct (Z.ltb_spec a b)
  | |- context [?a <=? ?b] => destruct (Z.leb_spec a b)
  | |- context [?a =? ?b] => destruct (Z.eqb_spec a b)
  | |- context [?a >? ?b] => rewrite (Z.gtb_ltb a b)
  end;
  cbv [orb andb negb]; try reflexivity; try discriminate; try lia.

(** A float above 1.5 is not below 1.2. *)
Lemma gt_1_5_not_lt_1_2 (r : float) :
  F64.gtb r F64.f1_5 = true -> F64.ltb r F64.f1_2 = false.
Proof.
  unfold F64.gtb, F64.ltb, F64.f1_5, F64.f1_2.
  destruct r as [s | s | | [|] m e].
  all: try (rewrite !ltb_finite_pos).
  all: try (intros _; reflexivity).
  all: try (destruct s).
  all: try (intros _; reflexivity).
  all: try discriminate.
  zcases.
Qed.

(** A float below 30 is not above 60. *)
Lemma lt_30_not_gt_60 (d : float) :
  F64.ltb d F64.f30 = true -> F64.gtb d F64.f60 = false.
Proof.
  unfold F64.gtb, F64.ltb, F64.f30, F64.f60.
  destruct d as [s | s | | [|] m e].
  all: try (rewrite !ltb_finite_pos).
  all: try (intros _; reflexivity).
  all: try (destruct s).
  all: try (intros _; reflexivity).
  all: try discriminate.
  zcases.
Qed.

(** Division succeeds when the divisor is positive. *)
Lemma div_by_positive (x y : float) :
  float_pos y = true -> F64.div x y = inr (SFdiv F64.prec F64.emax x y).
Proof.
  unfold float_pos, F64.gtb, F64.zero, F64.div.
  destruct y as [s | s | | s m e]; try reflexivity.
  discriminate.
Qed.

(** The analyzer computes the factors of the rule table. *)
Lemma analyze_by_table {Importance : Type} (data : CreditInput)
    (features : list float) (importance : Importance) :
  F64.div (monthly_income data) (monthly_expense data)
    = inr (SFdiv F64.prec F64.emax (monthly_income data) (monthly_expense data)) ->
  analyze_risk_factors data features importance = inr (table_factors data).
Proof.
  intros Hdiv. unfold analyze_risk_factors, table_factors. rewrite Hdiv.
  set (ratio := SFdiv F64.prec F64.emax (monthly_income data) (monthly_expense data)).
  unfold Py.bind, Py.ok, table_messages, rule_table.
  cbn [List.filter map rule_cond rule_bucket rule_message bucket_eqb andb].
  destruct (F64.gtb ratio F64.f1_5) eqn:Hr1.
  - rewrite (gt_1_5_not_lt_1_2 _ Hr1).
    destruct (F64.ltb (debt_percentage data) F64.f30) eqn:Hd1.
    + rewrite (lt_30_not_gt_60 _ Hd1).
      rewrite !(Z.gtb_ltb).
      destruct (Z.eqb_spec (late_payments data) 0);
      destruct (Z.ltb_spec 2 (late_payments data));
      destruct (Z.leb_spec 25 (age data));
      destruct (Z.leb_spec (age data) 55);
      destruct (Z.ltb_spec (age data) 25);
      destruct (Z.ltb_spec 5 (previous_loans data));
      destruct (Z.leb_spec 1 (previous_loans data));
      destruct (Z.leb_spec (previous_loans data) 3);
      try lia; reflexivity.
    + destruct (F64.gtb (debt_percentage data) F64.f60);
      rewrite !(Z.gtb_ltb);
      destruct (Z.eqb_spec (late_payments data) 0);
      destruct (Z.ltb_spec 2 (late_payments data));
      destruct (Z.leb_spec 25 (age data));
      destruct (Z.leb_spec (age data) 55);
      destruct (Z.ltb_spec (age data) 25);
      destruct (Z.ltb_spec 5 (previous_loans data));
      destruct (Z.leb_spec 1 (previous_loans data));
      destruct (Z.leb_spec (previous_loans data) 3);
      try lia; reflexivity.
  - destruct (F64.ltb ratio F64.f1_2);
    (destruct (F64.ltb (debt_percentage data) F64.f30) eqn:Hd1;
     [ rewrite (lt_30_not_gt_60 _ Hd1)
     | destruct (F64.gtb (debt_percentage data) F64.f60) ]);
    rewrite !(Z.gtb_ltb);
    destruct (Z.eqb_spec (late_payments data) 0);
    destruct (Z.ltb_spec 2 (late_payments data));
    destruct (Z.leb_spec 25 (age data));
    destruct (Z.leb_spec (age data) 55);
    destruct (Z.ltb_spec (age data) 25);
    destruct (Z.ltb_spec 5 (previous_loans data));
    destruct (Z.leb_spec 1 (previous_loans data));
    destruct (Z.leb_spec (previous_loans data) 3);
    try lia; reflexivity.
Qed.

(** C3: on every applicant record (its monthly expense is positive)
    [analyze_risk_factors] returns exactly the messages of the rule-table
    rows whose condition holds, each in the list of its bucket; the
    result does not depend on the feature vector or on the classifier's
    importances.  On the record of the example (age 30, income 3000,
    expense 1200, debt 20 percent, no late payment, 2 previous loans) the
    positive list holds the low-indebtedness, perfect-payment-history,
    moderate-credit-experience and optimal-age-range messages and the
    negative list is empty. *)
Theorem analyze_matches_rule_table :
  (forall (Importance : Type) (data : CreditInput) (features : list float)
          (importance : Importance),
      float_pos (monthly_expense data) = true ->
      analyze_risk_factors data features importance = inr (table_factors data)) /\
  (forall (Importance : Type) (data : CreditInput) (features : list float)
          (importance : Importance),
      age data = 30 ->
      monthly_income data = F64.of_Z 3000 ->
      monthly_expense data = F64.of_Z 1200 ->
      debt_percentage data = F64.of_Z 20 ->
      late_payments data = 0 ->
      previous_loans data = 2 ->
      exists f,
        analyze_risk_factors data features importance = inr f /\
        In Msg.debt_low (positive f) /\
        In Msg.payments_perfect (positive f) /\
        In Msg.loans_moderate (positive f) /\
        In Msg.age_optimal (positive f) /\
        negative f = []).
Proof.
  split.
  - intros Importance data features importance Hpos.
    apply analyze_by_table. apply div_by_positive. exact Hpos.
  - intros Importance data features importance Ha Hi He Hd Hl Hp.
    exists {| positive := [Msg.ratio_healthy; Msg.debt_low; Msg.payments_perfect;
                           Msg.age_optimal; Msg.loans_moderate];
              negative := []; neutral := [] |}.
    split.
    + unfold analyze_risk_factors. rewrite Ha, Hi, He, Hd, Hl, Hp.
      vm_compute. reflexivity.
    + cbn [positive negative In]. repeat split; auto 10.
Qed.

Lemma analyze_matches_rule_table_witness :
  float_pos (monthly_expense Demo.applicant) = true /\
  analyze_risk_factors Demo.applicant [] tt = inr (table_factors Demo.applicant).
Proof.
  split; [reflexivity |].
  apply (proj1 analyze_matches_rule_table unit Demo.applicant [] tt).
  reflexivity.
Defined.

(** The factors of the example applicant, computed. *)
Example analyze_example_applicant :
  analyze_risk_factors Demo.applicant [] tt
  = inr {| positive := [Msg.ratio_healthy; Msg.debt_low; Msg.payments_perfect;
                        Msg.age_optimal; Msg.loans_moderate];
           negative := [];
           neutral := [] |}.
Proof. vm_compute. reflexivity. Qed.

(** A zero expense makes the analyzer raise. *)
Lemma analyze_zero_expense {Importance : Type} (data : CreditInput)
    (features : list float) (importance : Importance) (s : bool) :
  monthly_expense data = S754_zero s ->
  analyze_risk_factors data features importance = inl Py.ZeroDivisionError.
Proof.
  intros He. unfold analyze_risk_factors, F64.div. rewrite He. reflexivity.
Qed.

(** ** The synthetic corpus *)

Section CorpusFacts.

Context {RandomState : Type} `{NumpyRandom RandomState}.

(** C5: two invocations of the generator with the same seed and the same
    sample count produce the same corpus (feature matrix and labels),
    whatever state numpy's global generator was in before each call; the
    generator is left in the same state too. *)
Theorem create_training_data_reproducible (seed_value n_samples : Z)
    (g1 g2 : RandomState) :
  create_training_data_with seed_value n_samples g1
  = create_training_data_with seed_value n_samples g2.
Proof.
  unfold create_training_data_with, rbind, random_seed. reflexivity.
Qed.

(** The same for the constants of the source, seed 42 and 1000 samples. *)
Corollary create_training_data_fixed (g1 g2 : RandomState) :
  create_training_data g1 = create_training_data g2.
Proof.
  unfold create_training_data, create_training_data_with, rbind, random_seed.
  reflexivity.
Qed.

End CorpusFacts.

(** ** The artifact store *)

Section StoreFacts.

Context {RandomState Scaler Classifier : Type}.
Context `{NumpyRandom RandomState} `{Sklearn Scaler Classifier}.

Lemma surjective_corpus (g : RandomState) :
  create_training_data g = (fst (fresh_corpus g), snd (fresh_corpus g), rng_after_training g).
Proof.
  unfold fresh_corpus, rng_after_training.
  destruct (create_training_data g) as [[X y] g']. reflexivity.
Qed.

(** [train_model] in terms of its two writes. *)
Lemma train_model_unfold (w : World) :
  train_model w =
  io_bind (joblib_dump (PModel (fresh_model (rng w))) MODEL_PATH) (fun _ =>
  io_bind (joblib_dump (PScaler (fresh_scaler (rng w))) SCALER_PATH) (fun _ =>
  ret (PModel (fresh_model (rng w)), PScaler (fresh_scaler (rng w)))))
    {| files := files w; rng := rng_after_training (rng w); disk := disk w |}.
Proof.
  unfold train_model, io_bind at 1, with_rng.
  rewrite (surjective_corpus (rng w)). reflexivity.
Qed.

(** Training when both writes complete. *)
Lemma train_model_completes (w : World) :
  writes_complete 2 (disk w) = true ->
  train_model w =
  (inr (PModel (fresh_model (rng w)), PScaler (fresh_scaler (rng w))),
   {| files := <[SCALER_PATH := Pickled (PScaler (fresh_scaler (rng w)))]>
                 (<[MODEL_PATH := Pickled (PModel (fresh_model (rng w)))]> (files w));
      rng := rng_after_training (rng w);
      disk := drop 2 (disk w) |}).
Proof.
  intros Hok. rewrite train_model_unfold.
  unfold io_bind, joblib_dump, ret; cbn [files rng disk].
  destruct (disk w) as [| [ | | ] [| [ | | ] rest]]; cbn in Hok;
    try discriminate; reflexivity.
Qed.

(** Training when the first write fails. *)
Lemma train_model_first_write_fails (w : World) (o : write_outcome)
    (rest : list write_outcome) :
  disk w = o :: rest -> o <> WriteOk ->
  train_model w =
  (inl Py.OSError,
   {| files := match o with
               | WriteFailsPartial => <[MODEL_PATH := Truncated]> (files w)
               | _ => files w
               end;
      rng := rng_after_training (rng w);
      disk := rest |}).
Proof.
  intros Hd Ho. rewrite train_model_unfold.
  unfold io_bind, joblib_dump; cbn [files rng disk]. rewrite Hd.
  destruct o; [contradiction | reflexivity | reflexivity].
Qed.

(** Training when the first write completes and the second fails. *)
Lemma train_model_second_write_fails (w : World) (o : write_outcome)
    (rest : list write_outcome) :
  disk w = WriteOk :: o :: rest -> o <> WriteOk ->
  train_model w =
  (inl Py.OSError,
   {| files := match o with
               | WriteFailsPartial =>
                   <[SCALER_PATH := Truncated]>
                     (<[MODEL_PATH := Pickled (PModel (fresh_model (rng w)))]> (files w))
               | _ => <[MODEL_PATH := Pickled (PModel (fresh_model (rng w)))]> (files w)
               end;
      rng := rng_after_training (rng w);
      disk := rest |}).
Proof.
  intros Hd Ho. rewrite train_model_unfold.
  unfold io_bind, joblib_dump; cbn [files rng disk]. rewrite Hd.
  destruct o; [contradiction | reflexivity | reflexivity].
Qed.

Lemma paths_differ : MODEL_PATH <> SCALER_PATH.
Proof. discriminate. Qed.

(** A load that finds both pickles. *)
Lemma load_model_hit (w : World) (m s : pyobj) :
  files w !! MODEL_PATH = Some (Pickled m) ->
  files w !! SCALER_PATH = Some (Pickled s) ->
  load_model w = (inr (m, s), w).
Proof.
  intros Hm Hs.
  unfold load_model, io_bind, path_exists, joblib_load, ret.
  rewrite Hm, Hs. cbn. rewrite Hm, Hs. reflexivity.
Qed.

(** A load that misses a file is a run of [train_model]. *)
Lemma load_model_miss (w : World) :
  files w !! MODEL_PATH = None \/ files w !! SCALER_PATH = None ->
  load_model w = train_model w.
Proof.
  intros Hmiss.
  unfold load_model, io_bind at 1 2, path_exists.
  assert (Hb : bool_decide (is_Some (files w !! MODEL_PATH))
               && bool_decide (is_Some (files w !! SCALER_PATH)) = false).
  { destruct Hmiss as [Hn | Hn]; rewrite Hn.
    - rewrite bool_decide_eq_false_2; [reflexivity | apply is_Some_None].
    - rewrite (bool_decide_eq_false_2 (is_Some None)) by apply is_Some_None.
      apply andb_false_r. }
  cbn [Py.ok]. rewrite Hb. reflexivity.
Qed.

(** C7: [load_model] returns the persisted pair, and leaves the state
    alone, when both artifact files hold a pickle; if either file is
    missing it runs the whole training sequence at once (corpus, scaler,
    classifier, then both artifacts written) and returns the pair it has
    just trained. *)
Theorem load_model_loads_or_trains (w : World) :
  (forall m s : pyobj,
      files w !! MODEL_PATH = Some (Pickled m) ->
      files w !! SCALER_PATH = Some (Pickled s) ->
      load_model w = (inr (m, s), w)) /\
  (files w !! MODEL_PATH = None \/ files w !! SCALER_PATH = None ->
   writes_complete 2 (disk w) = true ->
   load_model w =
   (inr (PModel (fresh_model (rng w)), PScaler (fresh_scaler (rng w))),
    {| files := <[SCALER_PATH := Pickled (PScaler (fresh_scaler (rng w)))]>
                  (<[MODEL_PATH := Pickled (PModel (fresh_model (rng w)))]> (files w));
       rng := rng_after_training (rng w);
       disk := drop 2 (disk w) |})).
Proof.
  split.
  - intros m s. apply load_model_hit.
  - intros Hmiss Hok. rewrite (load_model_miss w Hmiss).
    apply train_model_completes. exact Hok.
Qed.

(** After a run of training whose writes complete, a load finds the pair
    that the run returned. *)
Lemma load_after_training (w : World) :
  writes_complete 2 (disk w) = true ->
  load_model (snd (train_model w)) = (fst (train_model w), snd (train_model w)).
Proof.
  intros Hok. rewrite (train_model_completes w Hok). cbn [fst snd].
  apply load_model_hit; cbn [files].
  - rewrite lookup_insert_ne by (intros E; symmetry in E; exact (paths_differ E)).
    apply lookup_insert_eq.
  - apply lookup_insert_eq.
Qed.

(** C9, as the code has it: [train_model] overwrites the two artifact
    files in place, the classifier first.  When the write of the
    classifier fails the scaler file is untouched, and the classifier
    file is untouched too if the failure came before the file was
    opened, a partial file otherwise.  When the write of the classifier
    completes and the write of the scaler fails, the classifier file
    already holds the new classifier, next to the previous scaler file or
    a partial one. *)
Theorem train_model_replaces_in_place (w : World) (o : write_outcome)
    (rest : list write_outcome) :
  o <> WriteOk ->
  (disk w = o :: rest ->
   exists w',
     train_model w = (inl Py.OSError, w') /\
     files w' !! SCALER_PATH = files w !! SCALER_PATH /\
     (o = WriteFailsUnopened -> files w' !! MODEL_PATH = files w !! MODEL_PATH) /\
     (o = WriteFailsPartial -> files w' !! MODEL_PATH = Some Truncated)) /\
  (disk w = WriteOk :: o :: rest ->
   exists w',
     train_model w = (inl Py.OSError, w') /\
     files w' !! MODEL_PATH = Some (Pickled (PModel (fresh_model (rng w)))) /\
     (o = WriteFailsUnopened -> files w' !! SCALER_PATH = files w !! SCALER_PATH) /\
     (o = WriteFailsPartial -> files w' !! SCALER_PATH = Some Truncated)).
Proof.
  intros Ho.
  assert (Hne : SCALER_PATH <> MODEL_PATH)
    by (intros E; symmetry in E; exact (paths_differ E)).
  split; intros Hd.
  - eexists. split; [apply (train_model_first_write_fails w o rest Hd Ho) |].
    cbn [files]. destruct o; [contradiction | |].
    + split; [reflexivity |].
      split; [intros _; reflexivity | discriminate].
    + split; [apply lookup_insert_ne; exact paths_differ |].
      split; [discriminate | intros _; apply lookup_insert_eq].
  - eexists. split; [apply (train_model_second_write_fails w o rest Hd Ho) |].
    cbn [files]. destruct o; [contradiction | |].
    + split; [apply lookup_insert_eq |].
      split; [intros _; apply lookup_insert_ne; exact paths_differ | discriminate].
    + split; [rewrite lookup_insert_ne by exact Hne; apply lookup_insert_eq |].
      split; [discriminate | intros _; apply lookup_insert_eq].
Qed.

End StoreFacts.

(** *** The store on the stand-in libraries *)

Lemma load_model_loads_or_trains_witness :
  load_model (Demo.world Demo.stored_files [])
  = (inr (Demo.old_model, Demo.old_scaler), Demo.world Demo.stored_files []).
Proof.
  apply (proj1 (load_model_loads_or_trains (Demo.world Demo.stored_files []))).
  - reflexivity.
  - reflexivity.
Defined.

Lemma train_model_replaces_in_place_witness :
  exists w',
    train_model (Demo.world Demo.stored_files [WriteOk; WriteFailsUnopened])
      = (inl Py.OSError, w') /\
    files w' !! MODEL_PATH = Some (Pickled (PModel F64.f0_5)).
Proof.
  destruct (proj2 (train_model_replaces_in_place
                     (Demo.world Demo.stored_files [WriteOk; WriteFailsUnopened])
                     WriteFailsUnopened []
                     ltac:(discriminate)) eq_refl)
    as (w' & Hrun & Hmodel & _).
  exists w'. split; [exact Hrun | exact Hmodel].
Defined.

(** C9 fails as stated: with a pair from an earlier run on disk, a run of
    [train_model] whose second write fails has already replaced the
    classifier file, so the earlier pair is gone. *)
Lemma persistence_not_atomic :
  ~ pair_survives_failure
      (Demo.world Demo.stored_files [WriteOk; WriteFailsUnopened]).
Proof.
  intros Hclaim.
  set (w := Demo.world Demo.stored_files [WriteOk; WriteFailsUnopened]) in *.
  pose proof (train_model_second_write_fails w WriteFailsUnopened []
                eq_refl ltac:(discriminate)) as Hrun.
  destruct (Hclaim _ _ Hrun) as [Hmodel _].
  cbn [files] in Hmodel.
  rewrite lookup_insert_eq in Hmodel.
  unfold w, Demo.world, Demo.stored_files in Hmodel. cbn [files] in Hmodel.
  rewrite lookup_insert_ne in Hmodel by (intros E; symmetry in E; exact (paths_differ E)).
  rewrite lookup_insert_eq in Hmodel.
  discriminate Hmodel.
Qed.

(** * Floating-point facts *)

(** ** Digits of a mantissa *)

Lemma digits2_size (m : Pos.t) : digits2_pos m = Pos.size m.
Proof. induction m; simpl; congruence. Qed.

Lemma digits2_bounds (m : Pos.t) :
  2 ^ (Z.pos (digits2_pos m) - 1) <= Z.pos m < 2 ^ Z.pos (digits2_pos m).
Proof.
  rewrite digits2_size. split.
  - pose proof (Pos.size_le m) as Hle.
    assert (H2 : 2 ^ Z.pos (Pos.size m) <= 2 * Z.pos m).
    { change 2 with (Z.pos 2) at 1. rewrite <- Pos2Z.inj_pow.
      change (2 * Z.pos m) with (Z.pos m~0). apply Pos2Z.pos_le_pos. exact Hle. }
    replace (Z.pos (Pos.size m)) with (Z.succ (Z.pos (Pos.size m) - 1)) in H2 by lia.
    rewrite Z.pow_succ_r in H2 by lia. lia.
  - pose proof (Pos.size_gt m) as Hgt.
    change 2 with (Z.pos 2). rewrite <- Pos2Z.inj_pow.
    apply Pos2Z.pos_lt_pos. exact Hgt.
Qed.

Lemma digits2_le (m : Pos.t) (k : Z) :
  Z.pos m < 2 ^ k -> Z.pos (digits2_pos m) <= k.
Proof.
  intros Hlt. destruct (digits2_bounds m) as [Hlo _].
  destruct (Z.le_gt_cases (Z.pos (digits2_pos m)) k) as [|Hgt]; [assumption|].
  assert (2 ^ k <= 2 ^ (Z.pos (digits2_pos m) - 1)).
  { destruct (Z.lt_ge_cases k 0).
    - rewrite (Z.pow_neg_r 2 k) by assumption. apply Z.pow_nonneg. lia.
    - apply Z.pow_le_mono_r; lia. }
  lia.
Qed.

Lemma digits2_ge (m : Pos.t) (k : Z) :
  2 ^ (k - 1) <= Z.pos m -> k <= Z.pos (digits2_pos m).
Proof.
  intros Hle. destruct (digits2_bounds m) as [_ Hhi].
  destruct (Z.le_gt_cases k (Z.pos (digits2_pos m))) as [|Hgt]; [assumption|].
  assert (2 ^ Z.pos (digits2_pos m) <= 2 ^ (k - 1)).
  { apply Z.pow_le_mono_r; lia. }
  lia.
Qed.

(** ** Shifting a mantissa to the right *)

(** One halving step on a nonnegative mantissa. *)
Lemma shr_1_nonneg (m : Z) (r s : bool) :
  0 <= m ->
  shr_1 (Build_shr_record m r s) = Build_shr_record (m / 2) (Z.odd m) (r || s).
Proof.
  intros Hm. rewrite <- Z.div2_div.
  destruct m as [| [p | p |] | p]; try reflexivity. lia.
Qed.

Lemma mod_pow2_split (m0 k : Z) :
  0 <= k ->
  m0 mod 2 ^ (k + 1) = m0 mod 2 ^ k + 2 ^ k * Z.b2z (Z.testbit m0 k).
Proof.
  intros Hk. rewrite Z.pow_add_r, Z.pow_1_r by lia.
  rewrite Z.rem_mul_r by (try apply Z.pow_nonzero; lia).
  rewrite Z.testbit_spec' by lia. reflexivity.
Qed.

Lemma shr_1_shifted (m0 k : Z) (mrs : shr_record) :
  0 <= m0 -> 0 <= k -> shifted m0 k mrs -> shifted m0 (k + 1) (shr_1 mrs).
Proof.
  intros Hm Hk. unfold shifted.
  destruct (Z.eqb_spec k 0) as [-> | Hk0].
  - intros ->. rewrite shr_1_nonneg by assumption.
    change (0 + 1 =? 0) with false. cbv iota. cbn [shr_m shr_r shr_s orb].
    change (0 + 1 - 1) with 0. change (2 ^ 0) with 1. change (2 ^ (0 + 1)) with 2.
    rewrite Z.mod_1_r. repeat split.
  - destruct (Z.eqb_spec (k + 1) 0); [lia |].
    destruct mrs as [m r s]. cbn [shr_m shr_r shr_s]. intros (-> & -> & ->).
    assert (Hq : 0 <= m0 / 2 ^ k) by (apply Z.div_pos; [lia | apply Z.pow_pos_nonneg; lia]).
    rewrite shr_1_nonneg by assumption. cbn [shr_m shr_r shr_s].
    replace (k + 1 - 1) with k by lia.
    split; [| split].
    + rewrite Z.pow_add_r, Z.pow_1_r by lia.
      rewrite Z.div_div by (try apply Z.pow_pos_nonneg; lia). reflexivity.
    + rewrite <- Z.bit0_odd. rewrite Z.div_pow2_bits by lia. reflexivity.
    + replace k with (k - 1 + 1) at 3 by lia.
      rewrite mod_pow2_split by lia.
      assert (H0 : 0 <= m0 mod 2 ^ (k - 1))
        by (apply Z.mod_pos_bound, Z.pow_pos_nonneg; lia).
      assert (Hp : 0 < 2 ^ (k - 1)) by (apply Z.pow_pos_nonneg; lia).
      destruct (Z.testbit m0 (k - 1)); cbn [Z.b2z orb].
      * symmetry. apply negb_true_iff. apply Z.eqb_neq. lia.
      * f_equal. rewrite Z.mul_0_r, Z.add_0_r. reflexivity.
Qed.

Lemma iter_pos_shifted (m0 : Z) (p : Pos.t) :
  0 <= m0 ->
  forall (k : Z) (mrs : shr_record),
    0 <= k -> shifted m0 k mrs -> shifted m0 (k + Z.pos p) (SpecFloat.iter_pos shr_1 p mrs).
Proof.
  intros Hm. induction p as [p IH | p IH |]; intros k mrs Hk Hs; cbn [SpecFloat.iter_pos].
  - replace (k + Z.pos p~1) with (k + 1 + Z.pos p + Z.pos p) by lia.
    apply IH; [lia |]. apply IH; [lia |]. apply shr_1_shifted; assumption.
  - replace (k + Z.pos p~0) with (k + Z.pos p + Z.pos p) by lia.
    apply IH; [lia |]. apply IH; assumption.
  - apply shr_1_shifted; assumption.
Qed.

(** Rounding to nearest after a shift moves the quotient by at most one,
    and not at all when the last bit shifted out is clear. *)
Lemma round_nearest_even_cases (mrs : shr_record) :
  let q := round_nearest_even (shr_m mrs) (loc_of_shr_record mrs) in
  (q = shr_m mrs \/ q = shr_m mrs + 1) /\
  (shr_r mrs = false -> q = shr_m mrs).
Proof.
  destruct mrs as [m [|] [|]]; cbn; split; auto; try discriminate.
  destruct (Z.even m); auto.
Qed.

(** ** Rounding to binary64 *)
Lemma fexp64_eq (e : Z) : fexp 53 1024 e = fexp64 e.
Proof. reflexivity. Qed.

Lemma Zdigits2_nonneg (m : Z) : 0 <= Zdigits2 m.
Proof. destruct m; cbn; lia. Qed.

(** The first step of rounding: the exponent is raised to the one the
    format asks for, and the mantissa shifted to match. *)
Lemma shr_fexp_exact (m E : Z) :
  0 <= m ->
  let E1 := Z.max E (fexp64 (Zdigits2 m + E)) in
  exists mrs,
    shr_fexp 53 1024 m E loc_Exact = (mrs, E1) /\ shifted m (E1 - E) mrs.
Proof.
  intros Hm E1. unfold shr_fexp, shr. rewrite fexp64_eq.
  cbn [shr_record_of_loc].
  destruct (fexp64 (Zdigits2 m + E) - E) as [| p | p] eqn:Hk.
  - exists (Build_shr_record m false false).
    assert (HE : E1 = E) by (unfold E1; lia).
    rewrite HE, Z.sub_diag. split; reflexivity.
  - exists (SpecFloat.iter_pos shr_1 p (Build_shr_record m false false)).
    assert (HE : E1 = E + Z.pos p) by (unfold E1; lia).
    rewrite HE. split; [reflexivity |].
    replace (E + Z.pos p - E) with (0 + Z.pos p) by lia.
    apply iter_pos_shifted; [assumption | lia | reflexivity].
  - exists (Build_shr_record m false false).
    assert (HE : E1 = E) by (unfold E1; lia).
    rewrite HE, Z.sub_diag. split; reflexivity.
Qed.

Lemma shifted_quotient (m k : Z) (mrs : shr_record) :
  0 <= k -> shifted m k mrs -> shr_m mrs = m / 2 ^ k.
Proof.
  intros Hk. unfold shifted. destruct (Z.eqb_spec k 0) as [-> | Hk0].
  - intros ->. cbn. rewrite Z.div_1_r. reflexivity.
  - intros [Hq _]. exact Hq.
Qed.

(** The rounding of the exact value [M * 2^E]. *)
Lemma binary_round_aux_exact (s : bool) (M : Pos.t) (E : Z) :
  let E1 := Z.max E (fexp64 (Z.pos (digits2_pos M) + E)) in
  let k1 := E1 - E in
  exists M2 : Z,
    (M2 = Z.pos M / 2 ^ k1 \/ M2 = Z.pos M / 2 ^ k1 + 1) /\
    (Z.pos M mod 2 ^ k1 = 0 -> M2 = Z.pos M / 2 ^ k1) /\
    (0 < k1 -> Z.testbit (Z.pos M) (k1 - 1) = false -> M2 = Z.pos M / 2 ^ k1) /\
    let E3 := Z.max E1 (fexp64 (Zdigits2 M2 + E1)) in
    binary_round_aux 53 1024 s (Z.pos M) E loc_Exact = pack s (M2 / 2 ^ (E3 - E1)) E3.
Proof.
  intros E1 k1.
  destruct (shr_fexp_exact (Z.pos M) E ltac:(lia)) as (mrs & Hshr & Hsh).
  change (Zdigits2 (Z.pos M)) with (Z.pos (digits2_pos M)) in Hshr, Hsh.
  fold E1 in Hshr, Hsh. fold k1 in Hsh.
  assert (Hk1 : 0 <= k1) by (unfold k1, E1; lia).
  pose proof (shifted_quotient _ _ _ Hk1 Hsh) as Hq.
  set (M2 := round_nearest_even (shr_m mrs) (loc_of_shr_record mrs)).
  destruct (round_nearest_even_cases mrs) as [Hcases Hclear]. fold M2 in Hcases, Hclear.
  assert (HM2 : 0 <= M2).
  { assert (0 <= Z.pos M / 2 ^ k1)
      by (apply Z.div_pos; [lia | apply Z.pow_pos_nonneg; lia]).
    lia. }
  exists M2. rewrite <- Hq.
  split; [exact Hcases |].
  assert (Hbit : 0 < k1 -> Z.testbit (Z.pos M) (k1 - 1) = false -> M2 = shr_m mrs).
  { intros Hpos Hb. apply Hclear.
    unfold shifted in Hsh. destruct (Z.eqb_spec k1 0); [lia |].
    destruct Hsh as (_ & Hr & _). rewrite Hr. exact Hb. }
  split; [| split; [exact Hbit |]].
  - intros Hmod. destruct (Z.eq_dec k1 0) as [Hz | Hnz].
    + unfold shifted in Hsh. rewrite Hz in Hsh. cbn in Hsh. subst mrs. reflexivity.
    + apply Hbit; [lia |].
      replace k1 with (k1 - 1 + 1) in Hmod by lia.
      rewrite mod_pow2_split in Hmod by lia.
      assert (0 <= Z.pos M mod 2 ^ (k1 - 1))
        by (apply Z.mod_pos_bound, Z.pow_pos_nonneg; lia).
      assert (0 < 2 ^ (k1 - 1)) by (apply Z.pow_pos_nonneg; lia).
      destruct (Z.testbit (Z.pos M) (k1 - 1)); [cbn [Z.b2z] in Hmod; lia | reflexivity].
  - intros E3.
    destruct (shr_fexp_exact M2 E1 HM2) as (mrs2 & Hshr2 & Hsh2).
    fold E3 in Hshr2, Hsh2.
    assert (Hk2 : 0 <= E3 - E1) by (unfold E3; lia).
    pose proof (shifted_quotient _ _ _ Hk2 Hsh2) as Hq2.
    unfold binary_round_aux. rewrite Hshr. fold M2. rewrite Hshr2.
    rewrite Hq2. unfold pack.
    destruct (M2 / 2 ^ (E3 - E1)); reflexivity.
Qed.

Lemma leb_finite_pos (m1 m2 : Pos.t) (e1 e2 : Z) :
  SFleb (S754_finite false m1 e1) (S754_finite false m2 e2)
  = (e1 <? e2) || ((e1 =? e2) && (Z.pos m1 <=? Z.pos m2)).
Proof.
  unfold SFleb, SFcompare.
  change (Pos.compare_cont Eq m1 m2) with (Z.pos m1 ?= Z.pos m2).
  destruct (Z.compare_spec e1 e2) as [He | He | He].
  - subst e2. rewrite Z.ltb_irrefl, Z.eqb_refl.
    unfold Z.leb. destruct (Z.pos m1 ?= Z.pos m2); reflexivity.
  - apply Z.ltb_lt in He. rewrite He. reflexivity.
  - assert (H1 : (e1 <? e2) = false) by (apply Z.ltb_ge; lia).
    assert (H2 : (e1 =? e2) = false) by (apply Z.eqb_neq; lia).
    rewrite H1, H2. reflexivity.
Qed.

(** A valid mantissa has at most 53 bits. *)
Lemma valid_mantissa_bound (s : bool) (m : Pos.t) (e : Z) :
  F64.valid (S754_finite s m e) = true -> Z.pos m < 2 ^ 53 /\ -1074 <= e <= 971.
Proof.
  unfold F64.valid, valid_binary, bounded, canonical_mantissa.
  rewrite fexp64_eq. unfold fexp64, F64.emax, F64.prec.
  intros H. apply andb_true_iff in H as [Hc He].
  apply Z.eqb_eq in Hc. apply Z.leb_le in He.
  destruct (digits2_bounds m) as [_ Hhi].
  split; [| lia].
  assert (Hd : Z.pos (digits2_pos m) <= 53) by lia.
  eapply Z.lt_le_trans; [exact Hhi |].
  apply Z.pow_le_mono_r; lia.
Qed.

(** A probability is a zero or a positive float [m * 2^e] at most 1. *)
Lemma probability_cases (p : float) :
  is_probability p ->
  (exists s, p = S754_zero s) \/
  (exists m e, p = S754_finite false m e /\ e <= -52 /\ Z.pos m <= 2 ^ (- e)).
Proof.
  intros (Hv & H0 & H1).
  destruct p as [s | s | | s m e].
  - left. exists s. reflexivity.
  - destruct s; discriminate.
  - discriminate.
  - right. destruct s; [discriminate |].
    exists m, e. split; [reflexivity |].
    destruct (valid_mantissa_bound _ _ _ Hv) as [Hm _].
    unfold F64.leb, F64.one in H1. rewrite leb_finite_pos in H1.
    apply orb_true_iff in H1 as [Hlt | Heq].
    + apply Z.ltb_lt in Hlt. split; [lia |].
      assert (2 ^ 53 <= 2 ^ (- e)) by (apply Z.pow_le_mono_r; lia). lia.
    + apply andb_true_iff in Heq as [He Hle].
      apply Z.eqb_eq in He. apply Z.leb_le in Hle. subst e.
      split; [lia |]. exact Hle.
Qed.

Lemma pow2_pos (k : Z) : 0 <= k -> 0 < 2 ^ k.
Proof. intros. apply Z.pow_pos_nonneg; lia. Qed.

(** Rounding is monotone against a bound that the format represents: a
    product of at most [100], given as [M * 2^E], rounds to at most
    [100]. *)
Lemma round_at_most_100 (s : bool) (M : Pos.t) (E : Z) :
  E <= -46 -> Z.pos M <= 100 * 2 ^ (- E) ->
  exists m3 E3 : Z,
    binary_round_aux 53 1024 s (Z.pos M) E loc_Exact = pack s m3 E3 /\
    E3 <= -46 /\ 0 <= m3 <= 100 * 2 ^ (- E3).
Proof.
  intros HE HM.
  destruct (binary_round_aux_exact s M E) as (M2 & Hc & Hex & _ & Hres).
  cbv zeta in Hres.
  set (E1 := Z.max E (fexp64 (Z.pos (digits2_pos M) + E))) in *.
  set (k1 := E1 - E) in *.
  set (E3 := Z.max E1 (fexp64 (Zdigits2 M2 + E1))) in *.
  assert (Hd : Z.pos (digits2_pos M) <= 7 - E).
  { apply digits2_le.
    replace (7 - E) with (7 + - E) by lia. rewrite Z.pow_add_r by lia.
    pose proof (pow2_pos (- E) ltac:(lia)). change (2 ^ 7) with 128. lia. }
  assert (HE1 : E <= E1 <= -46) by (unfold E1, fexp64; lia).
  assert (Hk1 : 0 <= k1) by (unfold k1; lia).
  pose proof (pow2_pos k1 Hk1) as Hp1.
  pose proof (pow2_pos (- E1) ltac:(lia)) as HpE1.
  assert (Hsplit : 2 ^ (- E) = 2 ^ (- E1) * 2 ^ k1).
  { rewrite <- Z.pow_add_r by lia. f_equal. unfold k1. lia. }
  assert (HM2 : 0 <= M2 <= 100 * 2 ^ (- E1)).
  { pose proof (Z.div_mod (Z.pos M) (2 ^ k1) ltac:(lia)) as Hdm.
    pose proof (Z.mod_pos_bound (Z.pos M) (2 ^ k1) Hp1) as Hr.
    assert (Hq : 0 <= Z.pos M / 2 ^ k1) by (apply Z.div_pos; lia).
    rewrite Hsplit in HM.
    destruct (Z.lt_ge_cases (Z.pos M / 2 ^ k1) (100 * 2 ^ (- E1))) as [Hlt | Hge].
    - lia.
    - assert (Hr0 : Z.pos M mod 2 ^ k1 = 0) by nia.
      rewrite (Hex Hr0). split; [lia |]. nia. }
  assert (Hd2 : Zdigits2 M2 <= 7 - E1).
  { destruct M2 as [| p2 | p2]; [cbn; lia | | lia].
    cbn [Zdigits2]. apply digits2_le.
    replace (7 - E1) with (7 + - E1) by lia. rewrite Z.pow_add_r by lia.
    change (2 ^ 7) with 128. lia. }
  assert (HE3 : E1 <= E3 <= -46).
  { pose proof (Zdigits2_nonneg M2). unfold E3, fexp64. lia. }
  pose proof (pow2_pos (E3 - E1) ltac:(lia)) as Hp2.
  pose proof (pow2_pos (- E3) ltac:(lia)) as HpE3.
  assert (Hsplit2 : 2 ^ (- E1) = 2 ^ (- E3) * 2 ^ (E3 - E1)).
  { rewrite <- Z.pow_add_r by lia. f_equal. lia. }
  exists (M2 / 2 ^ (E3 - E1)), E3.
  split; [exact Hres |]. split; [lia |]. split.
  - apply Z.div_pos; lia.
  - apply Z.div_le_upper_bound; [lia |]. rewrite Hsplit2 in HM2. nia.
Qed.

(** [int] and the floor agree on what rounding produced, and stay
    within [0, 100]. *)
Lemma to_int_pack_at_most_100 (m3 E3 : Z) :
  E3 <= -46 -> 0 <= m3 <= 100 * 2 ^ (- E3) ->
  exists n : Z,
    F64.to_int (pack false m3 E3) = inr n /\
    F64.floor (pack false m3 E3) = Some n /\
    0 <= n <= 100.
Proof.
  intros HE Hm. destruct m3 as [| p | p]; [| | lia].
  - exists 0. cbn. repeat split; lia.
  - unfold pack. replace (E3 <=? 971) with true by (symmetry; apply Z.leb_le; lia).
    exists (Z.shiftl (Z.pos p) E3).
    cbn [F64.to_int F64.floor cond_Zopp]. split; [reflexivity |]. split; [reflexivity |].
    pose proof (pow2_pos (- E3) ltac:(lia)) as Hp.
    assert (Hsh : Z.shiftl (Z.pos p) E3 = Z.pos p / 2 ^ (- E3)).
    { rewrite <- (Z.opp_involutive E3) at 1.
      rewrite Z.shiftl_opp_r. apply Z.shiftr_div_pow2. lia. }
    rewrite Hsh. split.
    + apply Z.div_pos; lia.
    + apply Z.div_le_upper_bound; [lia |]. lia.
Qed.

(** The score of a probability: [int(p * 100)] is the floor of the
    float product and lies between 0 and 100. *)
Lemma score_of_probability (p : float) :
  is_probability p ->
  exists n : Z,
    F64.to_int (F64.mul p F64.f100) = inr n /\
    F64.floor (F64.mul p F64.f100) = Some n /\
    0 <= n <= 100.
Proof.
  intros Hp. destruct (probability_cases p Hp) as [[s ->] | (m & e & -> & He & Hm)].
  - exists 0. destruct s; cbn; repeat split; lia.
  - unfold F64.mul, F64.f100, SFmul. cbn [xorb].
    destruct (round_at_most_100 false (m * 7036874417766400) (e + -46))
      as (m3 & E3 & Hres & HE3 & Hm3).
    + lia.
    + rewrite Pos2Z.inj_mul.
      replace (- (e + -46)) with (46 + - e) by lia.
      rewrite Z.pow_add_r by lia.
      change (Z.pos 7036874417766400) with (100 * 2 ^ 46).
      pose proof (pow2_pos (- e) ltac:(lia)). nia.
    + unfold F64.prec, F64.emax. rewrite Hres.
      apply to_int_pack_at_most_100; assumption.
Qed.

Lemma pack_finite (s : bool) (m e : Z) :
  0 <= m -> e <= 971 -> F64.is_finite (pack s m e) = true.
Proof.
  intros Hm He. destruct m as [| p | p]; [reflexivity | | lia].
  unfold pack. replace (e <=? 971) with true by (symmetry; apply Z.leb_le; lia).
  reflexivity.
Qed.

(** A value below the limit rounds to a finite double. *)
Lemma round_in_range (s : bool) (M : Pos.t) (E : Z) :
  E <= 0 -> Z.pos M < double_limit * 2 ^ (- E) ->
  F64.is_finite (binary_round_aux 53 1024 s (Z.pos M) E loc_Exact) = true.
Proof.
  intros HE HM.
  destruct (binary_round_aux_exact s M E) as (M2 & Hc & Hex & Hbit & Hres).
  cbv zeta in Hres.
  set (d := Z.pos (digits2_pos M)) in *.
  set (E1 := Z.max E (fexp64 (d + E))) in *.
  set (k1 := E1 - E) in *.
  set (E3 := Z.max E1 (fexp64 (Zdigits2 M2 + E1))) in *.
  destruct (digits2_bounds M) as [Hlo Hhi]. fold d in Hlo, Hhi.
  assert (Hdpos : 1 <= d) by (unfold d; lia).
  pose proof (pow2_pos (- E) ltac:(lia)) as HpE.
  assert (Hlim : double_limit < 2 ^ 1024) by (unfold double_limit; lia).
  assert (Hd : d <= 1024 - E).
  { apply digits2_le.
    replace (1024 - E) with (1024 + - E) by lia. rewrite Z.pow_add_r by lia.
    assert (0 < double_limit) by (unfold double_limit; lia). nia. }
  assert (HE1 : E <= E1 <= 971) by (unfold E1, fexp64; lia).
  assert (Hk1 : 0 <= k1) by (unfold k1; lia).
  assert (Hk1d : d - 53 <= k1) by (unfold k1, E1, fexp64; lia).
  pose proof (pow2_pos k1 Hk1) as Hp1.
  assert (HM1 : 0 <= Z.pos M / 2 ^ k1 < 2 ^ 53).
  { split; [apply Z.div_pos; lia |].
    apply Z.div_lt_upper_bound; [lia |].
    rewrite <- Z.pow_add_r by lia.
    eapply Z.lt_le_trans; [exact Hhi |].
    apply Z.pow_le_mono_r; lia. }
  assert (HM2 : 0 <= M2 < 2 ^ (1024 - E1)).
  { split; [lia |].
    destruct (Z.eq_dec E1 971) as [Heq | Hne].
    - rewrite Heq. change (2 ^ (1024 - 971)) with (2 ^ 53).
      destruct (Z.eq_dec (Z.pos M / 2 ^ k1) (2 ^ 53 - 1)) as [Htop | Hnot]; [| lia].
      assert (Hk1pos : 0 < k1) by (unfold k1; lia).
      rewrite Hbit; [lia | exact Hk1pos |].
      destruct (Z.testbit (Z.pos M) (k1 - 1)) eqn:Hb; [| reflexivity].
      exfalso.
      pose proof (pow2_pos (k1 - 1) ltac:(lia)) as Hph.
      assert (Hpow : 2 ^ k1 = 2 * 2 ^ (k1 - 1)).
      { replace k1 with (1 + (k1 - 1)) at 1 by lia.
        rewrite Z.pow_add_r by lia. reflexivity. }
      pose proof (Z.div_mod (Z.pos M) (2 ^ k1) ltac:(lia)) as Hdm.
      pose proof (mod_pow2_split (Z.pos M) (k1 - 1) ltac:(lia)) as Hsp.
      replace (k1 - 1 + 1) with k1 in Hsp by lia.
      rewrite Hb in Hsp. cbn [Z.b2z] in Hsp.
      pose proof (Z.mod_pos_bound (Z.pos M) (2 ^ (k1 - 1)) Hph) as Hr.
      assert (HlimE : double_limit * 2 ^ (- E) = (2 ^ 54 - 1) * 2 ^ (k1 - 1)).
      { unfold double_limit.
        replace (2 ^ 1024 - 2 ^ 970) with ((2 ^ 54 - 1) * 2 ^ 970) by lia.
        rewrite <- Z.mul_assoc. f_equal.
        rewrite <- Z.pow_add_r by lia. f_equal. unfold k1. lia. }
      rewrite HlimE in HM. rewrite Htop in Hdm. nia.
    - assert (2 ^ 54 <= 2 ^ (1024 - E1)) by (apply Z.pow_le_mono_r; lia).
      lia. }
  assert (Hd2 : Zdigits2 M2 <= 1024 - E1).
  { destruct M2 as [| p2 | p2]; [cbn; lia | | lia].
    cbn [Zdigits2]. apply digits2_le. lia. }
  assert (HE3 : E1 <= E3 <= 971) by (unfold E3, fexp64; lia).
  unfold F64.prec, F64.emax in *. rewrite Hres.
  apply pack_finite; [| lia].
  apply Z.div_pos; [lia | apply pow2_pos; lia].
Qed.

Lemma iter_xO_pow (m d : Pos.t) :
  Z.pos (Pos.iter xO m d) = Z.pos m * 2 ^ Z.pos d.
Proof.
  change (Pos.iter xO m d) with (shift_pos d m).
  rewrite shift_pos_correct, Z.pow_pos_fold. apply Z.mul_comm.
Qed.

(** [float(n)] succeeds on every integer in the range of doubles. *)
Lemma of_int_in_range (n : Z) :
  in_double_range n -> F64.of_int n = inr (F64.of_Z n).
Proof.
  unfold in_double_range, F64.of_int. intros Hn.
  assert (Hfin : F64.is_finite (F64.of_Z n) = true).
  { unfold F64.of_Z, binary_normalize.
    destruct n as [| m | m]; [reflexivity | |].
    all: unfold binary_round, shl_align, F64.prec, F64.emax.
    all: rewrite fexp64_eq.
    all: destruct (fexp64 (Z.pos (digits2_pos m) + 0) - 0) as [| k | k] eqn:Hk.
    all: try (apply round_in_range; [lia | cbn [Z.abs] in Hn; rewrite Z.mul_1_r; exact Hn]).
    all: apply round_in_range; [unfold fexp64 in *; lia |].
    all: rewrite iter_xO_pow.
    all: assert (He : - fexp64 (Z.pos (digits2_pos m) + 0) = Z.pos k) by lia.
    all: rewrite He.
    all: pose proof (pow2_pos (Z.pos k) ltac:(lia)).
    all: cbn [Z.abs] in Hn; nia. }
  cbv zeta. rewrite Hfin. reflexivity.
Qed.

(** * The preprocessor *)

Lemma ascii_eqb_nat (a b : ascii) :
  Ascii.eqb a b = (nat_of_ascii a =? nat_of_ascii b)%nat.
Proof.
  destruct (Ascii.eqb_spec a b) as [-> | Hne].
  - symmetry. apply Nat.eqb_refl.
  - symmetry. apply Nat.eqb_neq. intros E. apply Hne.
    rewrite <- (ascii_nat_embedding a), <- (ascii_nat_embedding b), E.
    reflexivity.
Qed.

(** Lowering a character and comparing it with a letter that is not a
    capital is comparing up to case. *)
Lemma lower_ascii_same_letter (a k : ascii) :
  is_upper k = false -> Ascii.eqb (lower_ascii a) k = same_letter a k.
Proof.
  unfold lower_ascii, same_letter, is_upper. intros Hk.
  pose proof (nat_ascii_bounded a) as Ha.
  rewrite (ascii_eqb_nat a k).
  destruct ((65 <=? nat_of_ascii a)%nat && (nat_of_ascii a <=? 90)%nat)%bool eqn:Hup.
  - rewrite ascii_eqb_nat.
    apply andb_true_iff in Hup as [H1 H2].
    apply Nat.leb_le in H1. apply Nat.leb_le in H2.
    rewrite nat_ascii_embedding by lia.
    destruct (Nat.eqb_spec (nat_of_ascii a) (nat_of_ascii k)) as [E | E].
    + rewrite <- E in Hk.
      assert (Hc : ((65 <=? nat_of_ascii a)%nat && (nat_of_ascii a <=? 90)%nat)%bool = true).
      { apply andb_true_iff. split; apply Nat.leb_le; lia. }
      rewrite Hc in Hk. discriminate.
    + reflexivity.
  - rewrite ascii_eqb_nat, orb_false_r. reflexivity.
Qed.

Lemma lower_matches_nocase (s k : string) :
  no_upper k = true -> String.eqb (lower s) k = matches_nocase s k.
Proof.
  revert k. induction s as [| a s IH]; intros [| b k] Hk; try reflexivity.
  cbn [no_upper] in Hk. apply andb_true_iff in Hk as [Hb Hk].
  apply negb_true_iff in Hb.
  cbn [lower String.eqb matches_nocase].
  rewrite (lower_ascii_same_letter a b Hb), (IH k Hk).
  destruct (same_letter a b); reflexivity.
Qed.

(** The marital flag is 1 exactly on "casado" and "married", in any
    letter case. *)
Lemma marital_encoded_nocase (d : CreditInput) :
  marital_encoded_of d
  = if matches_nocase (marital_status d) "casado"
       || matches_nocase (marital_status d) "married"
    then 1 else 0.
Proof.
  unfold marital_encoded_of, str_in. cbn [existsb].
  rewrite !lower_matches_nocase by reflexivity.
  rewrite orb_false_r. reflexivity.
Qed.

Lemma of_int_bool (b : bool) :
  F64.of_int (if b then 1 else 0) = inr (F64.of_bool b).
Proof. destruct b; reflexivity. Qed.

Lemma float_get_default (v : optional_float) :
  v <> PyNone -> float_get v = inr (default_zero v).
Proof. destruct v; [reflexivity | contradiction | reflexivity]. Qed.

(** The preprocessor on a record whose counts convert. *)
Lemma preprocess_features_run (d : CreditInput) :
  encodable d -> preprocess_features d = inr (encoded_vector d).
Proof.
  intros ((Ha & Hp & Hl) & Hdelay & Hbalance).
  unfold preprocess_features, encoded_vector.
  rewrite (of_int_in_range _ Ha), (of_int_in_range _ Hp), (of_int_in_range _ Hl).
  rewrite marital_encoded_nocase.
  rewrite !of_int_bool.
  rewrite (float_get_default _ Hdelay), (float_get_default _ Hbalance).
  reflexivity.
Qed.

(** C4, as the code has it: on every record whose integer fields [age],
    [previous_loans] and [late_payments] are within the range of a
    double (below [2^1024 - 2^970] in magnitude) and whose payment delay
    and average balance are absent or hold a float, [preprocess_features]
    returns the 11-element vector in the fixed order age, income,
    expense, debt percentage, previous loans, late payments, marital
    flag, active debts, active cards, payment delay, average balance;
    the marital flag is 1 exactly when the status equals "casado" or
    "married" up to letter case and 0 otherwise, the two booleans map to
    0 and 1, and an absent payment delay or average balance is 0. *)
Theorem preprocess_features_encodes (d : CreditInput) :
  encodable d ->
  preprocess_features d = inr (encoded_vector d) /\
  length (encoded_vector d) = 11%nat /\
  (marital_encoded_of d = 1 <->
   matches_nocase (marital_status d) "casado" = true \/
   matches_nocase (marital_status d) "married" = true) /\
  (marital_encoded_of d = 0 \/ marital_encoded_of d = 1).
Proof.
  intros Hr. split; [apply preprocess_features_run; exact Hr |].
  split; [reflexivity |].
  rewrite marital_encoded_nocase.
  destruct (matches_nocase (marital_status d) "casado");
    destruct (matches_nocase (marital_status d) "married"); cbn [orb];
    intuition congruence.
Qed.

Lemma demo_applicant_encodable : encodable Demo.applicant.
Proof.
  unfold encodable, counts_in_double_range, optional_fields_typed,
    in_double_range, double_limit;
    cbn [Demo.applicant age previous_loans late_payments payment_delay
         average_balance Z.abs].
  repeat split; try lia; discriminate.
Qed.

Lemma preprocess_features_encodes_witness :
  encodable Demo.applicant /\
  preprocess_features Demo.applicant = inr (encoded_vector Demo.applicant).
Proof.
  split; [exact demo_applicant_encodable |].
  apply (preprocess_features_encodes Demo.applicant demo_applicant_encodable).
Defined.

Lemma demo_huge_contract : input_contract Demo.applicant_huge_count.
Proof.
  unfold input_contract; cbn [Demo.applicant_huge_count age previous_loans
    late_payments monthly_income monthly_expense debt_percentage].
  repeat split; try reflexivity; try lia.
Qed.

(** C4 fails as stated: the record is well typed (a positive age, a
    nonnegative loan count, ...), and [float(previous_loans)] raises. *)
Lemma preprocess_features_overflows :
  input_contract Demo.applicant_huge_count /\
  preprocess_features Demo.applicant_huge_count = inl Py.OverflowError.
Proof.
  split; [exact demo_huge_contract |].
  vm_compute. reflexivity.
Qed.

(** A payment delay that is present and holds [None] makes the
    preprocessor raise. *)
Lemma preprocess_none_delay (d : CreditInput) :
  counts_in_double_range d -> payment_delay d = PyNone ->
  preprocess_features d = inl Py.TypeError.
Proof.
  intros (Ha & Hp & Hl) Hnone. unfold preprocess_features.
  rewrite (of_int_in_range _ Ha), (of_int_in_range _ Hp), (of_int_in_range _ Hl).
  rewrite marital_encoded_nocase, !of_int_bool, Hnone.
  reflexivity.
Qed.

(** The limit is the first integer that does not convert. *)
Example of_int_at_limit :
  F64.of_int double_limit = inl Py.OverflowError /\
  F64.of_int (double_limit - 1)
  = inr (S754_finite false 9007199254740991 971).
Proof. split; vm_compute; reflexivity. Qed.

(** The vector of the example applicant. *)
Example preprocess_example_applicant :
  preprocess_features Demo.applicant
  = inr [F64.of_Z 30; F64.of_Z 3000; F64.of_Z 1200; F64.of_Z 20; F64.of_Z 2;
         F64.zero; F64.one; F64.zero; F64.one; F64.zero; F64.zero].
Proof. vm_compute. reflexivity. Qed.

(** * The scorer *)

Section ScorerFacts.

Context {RandomState Scaler Classifier : Type}.
Context `{NumpyRandom RandomState} `{Sklearn Scaler Classifier}.

(** Once [load_model] has returned, [predict_credit_score] is the
    scoring steps on the loaded pair. *)
Lemma predict_with_loaded (w w' : World) (model scaler : pyobj)
    (data : CreditInput) :
  load_model w = (inr (model, scaler), w') ->
  predict_credit_score data w = (score_with model scaler data, w').
Proof.
  intros Hload. unfold predict_credit_score, io_bind. rewrite Hload.
  reflexivity.
Qed.

(** The scoring steps up to the analyzer. *)
Lemma score_with_steps (model : Classifier) (scaler : Scaler)
    (data : CreditInput) (features : list float) (p : float) (n : Z) :
  preprocess_features data = inr features ->
  class0_probability model scaler features p ->
  F64.to_int (F64.mul p F64.f100) = inr n ->
  score_with (PModel model) (PScaler scaler) data
  = Py.bind
      (analyze_risk_factors data features
         (combine feature_names (forest_feature_importances model)))
      (fun factors => Py.ok (n, risk_level_branch n, factors)).
Proof.
  intros Hpre (Hscaler & Hforest & rest & more & Hproba) Hint.
  unfold score_with. rewrite Hpre.
  cbn [Py.bind transform]. rewrite Hscaler.
  cbn [Py.bind Py.ok predict_proba]. rewrite Hforest.
  cbn [Py.bind Py.ok feature_importances_].
  rewrite Hproba. cbn [index nth_error Py.bind Py.ok].
  rewrite Hint. reflexivity.
Qed.

(** The scoring steps when scikit-learn rejects the vector. *)
Lemma score_with_rejected (model : Classifier) (scaler : Scaler)
    (data : CreditInput) (features : list float) :
  preprocess_features data = inr features ->
  scaler_accepts scaler [features] = false \/
  forest_accepts model (scaler_transform scaler [features]) = false ->
  score_with (PModel model) (PScaler scaler) data = inl Py.ValueError.
Proof.
  intros Hpre Hrejected. unfold score_with. rewrite Hpre.
  cbn [Py.bind transform].
  destruct (scaler_accepts scaler [features]) eqn:Hscaler;
    [| reflexivity].
  destruct Hrejected as [Hbad | Hforest]; [discriminate Hbad |].
  cbn [Py.bind Py.ok predict_proba]. rewrite Hforest. reflexivity.
Qed.

(** C2: when a record is scored with a loaded (model, scaler) pair, the
    score that comes back is the floor of the float product of 100 and
    the probability that the classifier reports for class 0 on the
    scaled feature vector, and lies between 0 and 100; on a record with a
    positive expense the call does come back with such a score. *)
Theorem score_is_floor_of_probability (w w' : World) (model : Classifier)
    (scaler : Scaler) (data : CreditInput) (features : list float) (p : float) :
  load_model w = (inr (PModel model, PScaler scaler), w') ->
  preprocess_features data = inr features ->
  class0_probability model scaler features p ->
  is_probability p ->
  (forall (score : Z) (level : string) (factors : Factors) (w'' : World),
      predict_credit_score data w = (inr (score, level, factors), w'') ->
      F64.floor (F64.mul p F64.f100) = Some score /\ 0 <= score <= 100) /\
  (float_pos (monthly_expense data) = true ->
   exists (score : Z) (factors : Factors),
     predict_credit_score data w
     = (inr (score, risk_level_branch score, factors), w') /\
     F64.floor (F64.mul p F64.f100) = Some score /\ 0 <= score <= 100).
Proof.
  intros Hload Hpre Hclass Hprob.
  destruct (score_of_probability p Hprob) as (n & Hint & Hfloor & Hrange).
  rewrite (predict_with_loaded w w' _ _ data Hload).
  rewrite (score_with_steps model scaler data features p n Hpre Hclass Hint).
  split.
  - intros score level factors w'' Hrun.
    destruct (analyze_risk_factors data features _) as [e | f];
      cbn [Py.bind Py.ok] in Hrun; [discriminate Hrun |].
    injection Hrun as <- _ _ _. split; assumption.
  - intros Hpos.
    rewrite (analyze_by_table data features _
               (div_by_positive (monthly_income data) (monthly_expense data) Hpos)).
    exists n, (table_factors data). cbn [Py.bind Py.ok].
    repeat split; try assumption; lia.
Qed.

(** C8, as the code has it: on every record that satisfies the input
    contract, whose integer fields [age], [previous_loans] and
    [late_payments] are within the range of a double and whose payment
    delay and average balance are absent or hold a float, with the
    artifacts loaded: when scikit-learn accepts the vector of the record
    (the scaler the vector, the classifier the scaled vector) and
    reports a probability for class 0 on it, neither the scoring nor the
    analysis of risk factors raises, both return; and when scikit-learn
    rejects the vector, the scoring raises its [ValueError]. *)
Theorem scoring_never_raises (w w' : World) (model : Classifier)
    (scaler : Scaler) (data : CreditInput) :
  input_contract data ->
  encodable data ->
  load_model w = (inr (PModel model, PScaler scaler), w') ->
  (forall p : float,
      class0_probability model scaler (encoded_vector data) p ->
      is_probability p ->
      exists (score : Z) (factors : Factors),
        predict_credit_score data w
        = (inr (score, risk_level_branch score, factors), w') /\
        0 <= score <= 100) /\
  (forall (Importance : Type) (features : list float) (importance : Importance),
      analyze_risk_factors data features importance = inr (table_factors data)) /\
  (scaler_accepts scaler [encoded_vector data] = false \/
   forest_accepts model (scaler_transform scaler [encoded_vector data]) = false ->
   predict_credit_score data w = (inl Py.ValueError, w')).
Proof.
  intros (_ & _ & Hexp & _) Hcounts Hload.
  pose proof (preprocess_features_run data Hcounts) as Hpre.
  split; [| split].
  - intros p Hclass Hprob.
    destruct (score_of_probability p Hprob) as (n & Hint & _ & Hrange).
    rewrite (predict_with_loaded w w' _ _ data Hload).
    rewrite (score_with_steps model scaler data _ p n Hpre Hclass Hint).
    rewrite (analyze_by_table data _ _
               (div_by_positive (monthly_income data) (monthly_expense data) Hexp)).
    exists n, (table_factors data). split; [reflexivity | exact Hrange].
  - intros Importance features importance.
    apply analyze_by_table, div_by_positive. exact Hexp.
  - intros Hrejected.
    rewrite (predict_with_loaded w w' _ _ data Hload).
    rewrite (score_with_rejected model scaler data _ Hpre Hrejected).
    reflexivity.
Qed.

End ScorerFacts.

(** *** The scorer on the stand-in libraries *)

Lemma demo_load_model :
  load_model (Demo.world Demo.stored_files [])
  = (inr (Demo.old_model, Demo.old_scaler), Demo.world Demo.stored_files []).
Proof.
  apply load_model_hit; cbn [Demo.world files]; unfold Demo.stored_files.
  - rewrite lookup_insert_ne by (intros E; symmetry in E; exact (paths_differ E)).
    apply lookup_insert_eq.
  - apply lookup_insert_eq.
Qed.

Lemma demo_probability : is_probability F64.f0_9.
Proof. repeat split. Qed.

Lemma demo_class0 :
  class0_probability (F64.f0_9 : float) tt (encoded_vector Demo.applicant)
    F64.f0_9.
Proof.
  split; [vm_compute; reflexivity |].
  split; [vm_compute; reflexivity |].
  exists [F64.f0_5], []. reflexivity.
Qed.

Lemma demo_applicant_contract : input_contract Demo.applicant.
Proof.
  unfold input_contract; cbn [Demo.applicant age previous_loans
    late_payments monthly_income monthly_expense debt_percentage].
  repeat split; try reflexivity; lia.
Qed.

Lemma score_is_floor_of_probability_witness :
  exists (score : Z) (factors : Factors),
    predict_credit_score Demo.applicant (Demo.world Demo.stored_files [])
    = (inr (score, risk_level_branch score, factors),
       Demo.world Demo.stored_files []) /\
    F64.floor (F64.mul F64.f0_9 F64.f100) = Some score /\ 0 <= score <= 100.
Proof.
  apply (proj2 (score_is_floor_of_probability
                  (Demo.world Demo.stored_files []) (Demo.world Demo.stored_files [])
                  F64.f0_9 tt Demo.applicant (encoded_vector Demo.applicant) F64.f0_9
                  demo_load_model
                  (preprocess_features_run Demo.applicant demo_applicant_encodable)
                  demo_class0
                  demo_probability)).
  reflexivity.
Defined.

Lemma scoring_never_raises_witness :
  exists (score : Z) (factors : Factors),
    predict_credit_score Demo.applicant (Demo.world Demo.stored_files [])
    = (inr (score, risk_level_branch score, factors),
       Demo.world Demo.stored_files []) /\
    0 <= score <= 100.
Proof.
  apply (proj1 (scoring_never_raises
                  (Demo.world Demo.stored_files []) (Demo.world Demo.stored_files [])
                  F64.f0_9 tt Demo.applicant
                  demo_applicant_contract demo_applicant_encodable
                  demo_load_model)
           F64.f0_9 demo_class0 demo_probability).
Defined.

(** C8 fails as stated: the record satisfies the input contract, the
    artifacts are loaded, and the scoring raises on
    [float(previous_loans)], before any call of scikit-learn. *)
Lemma scoring_raises_on_huge_count :
  input_contract Demo.applicant_huge_count /\
  load_model (Demo.world Demo.stored_files [])
  = (inr (PModel F64.f0_9, PScaler tt), Demo.world Demo.stored_files []) /\
  predict_credit_score Demo.applicant_huge_count (Demo.world Demo.stored_files [])
  = (inl Py.OverflowError, Demo.world Demo.stored_files []).
Proof.
  split; [exact demo_huge_contract |].
  split; [exact demo_load_model |].
  rewrite (predict_with_loaded _ _ _ _ _ demo_load_model).
  f_equal; vm_compute; reflexivity.
Qed.

(** The score of the example applicant under the stand-in classifier:
    [int(0.9 * 100)]. *)
Example score_example_applicant :
  score_with Demo.old_model Demo.old_scaler Demo.applicant
  = inr (90, "bajo riesgo"%string, table_factors Demo.applicant).
Proof. vm_compute. reflexivity. Qed.

(** The product is rounded before it is truncated: the double nearest
    to 0.57 is below 57/100 and its product with 100 stays below 57,
    while the product of the double nearest to 0.35 rounds to 35. *)
Example score_rounding :
  F64.to_int (F64.mul (F64.dec 57 100) F64.f100) = inr 56 /\
  F64.to_int (F64.mul (F64.dec 35 100) F64.f100) = inr 35.
Proof. split; vm_compute; reflexivity. Qed.

(** * More on [float(n)] *)

(** Rounding to nearest goes up when the last bit shifted out is set and
    the quotient is odd. *)
Lemma round_nearest_even_up (mrs : shr_record) :
  shr_r mrs = true -> Z.odd (shr_m mrs) = true ->
  round_nearest_even (shr_m mrs) (loc_of_shr_record mrs) = shr_m mrs + 1.
Proof.
  destruct mrs as [m [|] [|]]; cbn; intros Hr Ho; try discriminate; try reflexivity.
  rewrite <- Z.negb_odd, Ho. reflexivity.
Qed.

(** The rounding of an integer of 1024 bits or more, seen as [M * 2^0]:
    the mantissa keeps 53 bits, and the half-way bit decides upward when
    the kept mantissa is odd. *)
Lemma binary_round_aux_large (s : bool) (M : Pos.t) :
  let d := Z.pos (digits2_pos M) in
  54 <= d ->
  exists M2 : Z,
    (M2 = Z.pos M / 2 ^ (d - 53) \/ M2 = Z.pos M / 2 ^ (d - 53) + 1) /\
    (Z.testbit (Z.pos M) (d - 54) = true ->
     Z.odd (Z.pos M / 2 ^ (d - 53)) = true ->
     M2 = Z.pos M / 2 ^ (d - 53) + 1) /\
    let E3 := Z.max (d - 53) (fexp64 (Zdigits2 M2 + (d - 53))) in
    binary_round_aux 53 1024 s (Z.pos M) 0 loc_Exact
    = pack s (M2 / 2 ^ (E3 - (d - 53))) E3.
Proof.
  intros d Hd.
  destruct (shr_fexp_exact (Z.pos M) 0 ltac:(lia)) as (mrs & Hshr & Hsh).
  change (Zdigits2 (Z.pos M)) with d in Hshr, Hsh.
  clearbody d.
  assert (HE1 : Z.max 0 (fexp64 (d + 0)) = d - 53) by (unfold fexp64; lia).
  rewrite HE1 in Hshr, Hsh. rewrite Z.sub_0_r in Hsh.
  pose proof (shifted_quotient (Z.pos M) (d - 53) mrs ltac:(lia) Hsh) as Hq.
  set (M2 := round_nearest_even (shr_m mrs) (loc_of_shr_record mrs)).
  destruct (round_nearest_even_cases mrs) as [Hcases _]. fold M2 in Hcases.
  assert (HM2 : 0 <= M2).
  { assert (0 <= Z.pos M / 2 ^ (d - 53))
      by (apply Z.div_pos; [lia | apply Z.pow_pos_nonneg; lia]).
    lia. }
  exists M2. rewrite <- Hq. split; [exact Hcases |]. split.
  - intros Hbit Hodd. apply round_nearest_even_up; [| exact Hodd].
    unfold shifted in Hsh. destruct (Z.eqb_spec (d - 53) 0); [lia |].
    destruct Hsh as (_ & Hr & _). rewrite Hr.
    replace (d - 53 - 1) with (d - 54) by lia. exact Hbit.
  - intros E3.
    destruct (shr_fexp_exact M2 (d - 53) HM2) as (mrs2 & Hshr2 & Hsh2).
    fold E3 in Hshr2, Hsh2.
    assert (Hk2 : 0 <= E3 - (d - 53)) by (unfold E3; lia).
    pose proof (shifted_quotient _ _ _ Hk2 Hsh2) as Hq2.
    unfold binary_round_aux. rewrite Hshr. fold M2. rewrite Hshr2.
    rewrite Hq2. unfold pack.
    destruct (M2 / 2 ^ (E3 - (d - 53))); reflexivity.
Qed.

(** An integer at or above the limit rounds out of the range of
    doubles. *)
Lemma round_out_of_range (s : bool) (M : Pos.t) :
  double_limit <= Z.pos M ->
  binary_round_aux 53 1024 s (Z.pos M) 0 loc_Exact = S754_infinity s.
Proof.
  intros HM.
  destruct (digits2_bounds M) as [Hlo Hhi].
  assert (Hd : 1024 <= Z.pos (digits2_pos M)).
  { apply digits2_ge. unfold double_limit in HM. change (1024 - 1) with 1023. lia. }
  destruct (binary_round_aux_large s M ltac:(lia)) as (M2 & Hc & Hup & Hres).
  cbv zeta in Hres.
  set (d := Z.pos (digits2_pos M)) in *. clearbody d.
  set (k := d - 53) in *.
  assert (Hk : 971 <= k) by (unfold k; lia).
  pose proof (pow2_pos k ltac:(lia)) as Hpk.
  assert (Hpd : 2 ^ d = 2 ^ 53 * 2 ^ k).
  { rewrite <- Z.pow_add_r by lia. f_equal. unfold k. lia. }
  assert (Hpd1 : 2 ^ (d - 1) = 2 ^ 52 * 2 ^ k).
  { rewrite <- Z.pow_add_r by lia. f_equal. unfold k. lia. }
  assert (HM1 : 2 ^ 52 <= Z.pos M / 2 ^ k < 2 ^ 53).
  { split.
    - apply Z.div_le_lower_bound; [lia |]. rewrite Z.mul_comm, <- Hpd1. exact Hlo.
    - apply Z.div_lt_upper_bound; [lia |]. rewrite Z.mul_comm, <- Hpd. exact Hhi. }
  assert (HM2 : 2 ^ 52 <= M2 <= 2 ^ 53) by lia.
  assert (Hd2 : 53 <= Zdigits2 M2 <= 54).
  { destruct M2 as [| p2 | p2]; [lia | | lia]. cbn [Zdigits2]. split.
    - apply digits2_ge. change (53 - 1) with 52. lia.
    - apply digits2_le. lia. }
  set (E3 := Z.max k (fexp64 (Zdigits2 M2 + k))) in *.
  assert (HE3 : E3 = k \/ E3 = k + 1) by (unfold E3, fexp64; lia).
  assert (HM3 : 0 < M2 / 2 ^ (E3 - k)).
  { destruct HE3 as [-> | ->].
    - rewrite Z.sub_diag. change (2 ^ 0) with 1. rewrite Z.div_1_r. lia.
    - replace (k + 1 - k) with 1 by lia. change (2 ^ 1) with 2.
      apply Z.div_str_pos. lia. }
  assert (Hover : 971 < E3).
  { destruct (Z.eq_dec d 1024) as [Heq | Hne]; [| unfold E3; lia].
    assert (Hk971 : k = 971) by (unfold k; lia).
    assert (Hhalf : Z.pos M / 2 ^ 970 = 2 ^ 54 - 1).
    { assert (Hge : 2 ^ 54 - 1 <= Z.pos M / 2 ^ 970).
      { apply Z.div_le_lower_bound; [lia |]. unfold double_limit in HM. lia. }
      assert (Hlt : Z.pos M / 2 ^ 970 < 2 ^ 54).
      { apply Z.div_lt_upper_bound; [lia |]. rewrite Heq in Hhi. lia. }
      lia. }
    assert (Htop : Z.pos M / 2 ^ k = 2 ^ 53 - 1).
    { rewrite Hk971. change 971 with (970 + 1).
      rewrite Z.pow_add_r, <- Z.div_div by lia.
      rewrite Hhalf. reflexivity. }
    assert (HM2' : M2 = 2 ^ 53).
    { rewrite Hup; [rewrite Htop; lia | | rewrite Htop; reflexivity].
      replace (d - 54) with 970 by lia.
      apply Z.testbit_true; [lia |]. rewrite Hhalf. reflexivity. }
    unfold E3. rewrite HM2', Hk971. reflexivity. }
  rewrite Hres. unfold pack.
  destruct (M2 / 2 ^ (E3 - k)) as [| p | p]; [lia | | lia].
  replace (E3 <=? 971) with false by (symmetry; apply Z.leb_gt; lia).
  reflexivity.
Qed.

(** [float(n)] raises on every integer outside the range of doubles. *)
Lemma of_int_out_of_range (n : Z) :
  ~ in_double_range n -> F64.of_int n = inl Py.OverflowError.
Proof.
  unfold in_double_range, F64.of_int. intros Hn.
  assert (Hinf : F64.is_finite (F64.of_Z n) = false).
  { unfold F64.of_Z, binary_normalize.
    destruct n as [| m | m].
    - exfalso. apply Hn. unfold double_limit. cbn. lia.
    - cbn [Z.abs] in Hn.
      assert (Hd : 1024 <= Z.pos (digits2_pos m)).
      { apply digits2_ge. unfold double_limit in Hn. change (1024 - 1) with 1023. lia. }
      unfold binary_round, shl_align, F64.prec, F64.emax. rewrite fexp64_eq.
      destruct (fexp64 (Z.pos (digits2_pos m) + 0) - 0) as [| k | k] eqn:Hk;
        [| | unfold fexp64 in Hk; lia].
      all: rewrite round_out_of_range by lia; reflexivity.
    - cbn [Z.abs] in Hn.
      assert (Hd : 1024 <= Z.pos (digits2_pos m)).
      { apply digits2_ge. unfold double_limit in Hn. change (1024 - 1) with 1023. lia. }
      unfold binary_round, shl_align, F64.prec, F64.emax. rewrite fexp64_eq.
      destruct (fexp64 (Z.pos (digits2_pos m) + 0) - 0) as [| k | k] eqn:Hk;
        [| | unfold fexp64 in Hk; lia].
      all: rewrite round_out_of_range by lia; reflexivity. }
  cbv zeta. rewrite Hinf. reflexivity.
Qed.

(** * More on the scoring module *)

(** ** The analyzer: errors and sizes *)

Lemma div_by_nonzero (x y : float) :
  (forall s, y <> S754_zero s) -> F64.div x y = inr (SFdiv F64.prec F64.emax x y).
Proof.
  intros Hy. unfold F64.div. destruct y as [s | s | | s m e]; try reflexivity.
  exfalso. exact (Hy s eq_refl).
Qed.

(** What the analyzer returns, it reads off the table. *)
Lemma analyze_returns_table {Importance : Type} (d : CreditInput)
    (features : list float) (importance : Importance) (f : Factors) :
  analyze_risk_factors d features importance = inr f ->
  (forall s, monthly_expense d <> S754_zero s) /\ f = table_factors d.
Proof.
  intros Hrun.
  assert (Hnz : forall s, monthly_expense d <> S754_zero s).
  { intros s Hz. rewrite (analyze_zero_expense d features importance s Hz) in Hrun.
    discriminate Hrun. }
  split; [exact Hnz |].
  rewrite (analyze_by_table d features importance (div_by_nonzero _ _ Hnz)) in Hrun.
  injection Hrun as <-. reflexivity.
Qed.

(** [analyze_risk_factors] raises exactly when the monthly expense is a
    zero (of either sign), and then [ZeroDivisionError]; on every other
    expense, negative, infinite or NaN included, it returns the factors
    of the rule table. *)
Theorem analyze_raises_only_on_zero_expense :
  forall (Importance : Type) (d : CreditInput) (features : list float)
         (importance : Importance),
    (forall s, monthly_expense d = S754_zero s ->
               analyze_risk_factors d features importance = inl Py.ZeroDivisionError) /\
    ((forall s, monthly_expense d <> S754_zero s) ->
     analyze_risk_factors d features importance = inr (table_factors d)).
Proof.
  intros Importance d features importance. split.
  - intros s Hz. exact (analyze_zero_expense d features importance s Hz).
  - intros Hnz. apply analyze_by_table, div_by_nonzero. exact Hnz.
Qed.

Lemma analyze_raises_only_on_zero_expense_witness :
  analyze_risk_factors Demo.applicant [] tt = inr (table_factors Demo.applicant).
Proof.
  apply (proj2 (analyze_raises_only_on_zero_expense unit Demo.applicant [] tt)).
  intros s. discriminate.
Defined.

(** Each of the five rule pairs adds at most one message: the analyzer
    returns at most five factors in all, at most five positive, four
    negative and one neutral. *)
Theorem analyze_factor_counts :
  forall (Importance : Type) (d : CreditInput) (features : list float)
         (importance : Importance) (f : Factors),
    analyze_risk_factors d features importance = inr f ->
    (length (positive f) + length (negative f) + length (neutral f) <= 5)%nat /\
    (length (negative f) <= 4)%nat /\
    (length (neutral f) <= 1)%nat.
Proof.
  intros Importance d features importance f Hrun.
  unfold analyze_risk_factors in Hrun.
  destruct (F64.div (monthly_income d) (monthly_expense d)) as [e | ratio];
    cbn [Py.bind] in Hrun; [discriminate Hrun |].
  destruct (F64.gtb ratio F64.f1_5); [| destruct (F64.ltb ratio F64.f1_2)];
  (destruct (F64.ltb (debt_percentage d) F64.f30);
     [| destruct (F64.gtb (debt_percentage d) F64.f60)]);
  (destruct (late_payments d =? 0); [| destruct (late_payments d >? 2)]);
  (destruct ((25 <=? age d) && (age d <=? 55)); [| destruct (age d <? 25)]);
  (destruct (previous_loans d >? 5);
     [| destruct ((1 <=? previous_loans d) && (previous_loans d <=? 3))]);
  injection Hrun as <-; cbn; lia.
Qed.

Lemma analyze_factor_counts_witness :
  (length (positive (table_factors Demo.applicant))
   + length (negative (table_factors Demo.applicant))
   + length (neutral (table_factors Demo.applicant)) <= 5)%nat.
Proof.
  apply (analyze_factor_counts unit Demo.applicant [] tt (table_factors Demo.applicant)).
  vm_compute. reflexivity.
Defined.

(** ** The preprocessor: errors *)

Lemma in_double_range_dec (n : Z) : {in_double_range n} + {~ in_double_range n}.
Proof. unfold in_double_range. apply Z_lt_dec. Qed.

(** What the preprocessor returns, it returns on an encodable record. *)
Lemma preprocess_returns_encodable (d : CreditInput) (features : list float) :
  preprocess_features d = inr features ->
  encodable d /\ features = encoded_vector d.
Proof.
  intros Hrun.
  assert (Henc : encodable d).
  { unfold preprocess_features in Hrun.
    destruct (in_double_range_dec (age d)) as [Ha | Ha];
      [rewrite (of_int_in_range _ Ha) in Hrun
      | rewrite (of_int_out_of_range _ Ha) in Hrun; discriminate Hrun].
    destruct (in_double_range_dec (previous_loans d)) as [Hp | Hp];
      [rewrite (of_int_in_range _ Hp) in Hrun
      | rewrite (of_int_out_of_range _ Hp) in Hrun; discriminate Hrun].
    destruct (in_double_range_dec (late_payments d)) as [Hl | Hl];
      [rewrite (of_int_in_range _ Hl) in Hrun
      | rewrite (of_int_out_of_range _ Hl) in Hrun; discriminate Hrun].
    rewrite marital_encoded_nocase, !of_int_bool in Hrun.
    cbn [Py.bind] in Hrun.
    split; [repeat split; assumption |].
    split; intros Hnone; rewrite Hnone in Hrun; cbn in Hrun.
    - discriminate Hrun.
    - destruct (payment_delay d); discriminate Hrun. }
  split; [exact Henc |].
  rewrite (preprocess_features_run d Henc) in Hrun.
  injection Hrun as <-. reflexivity.
Qed.

(** [preprocess_features] raises [OverflowError] exactly when one of the
    counts [age], [previous_loans], [late_payments] is outside the range
    of doubles, whatever the other fields hold; with the counts in range
    it raises [TypeError] exactly when the payment delay or the average
    balance is [None]; it raises nothing else. *)
Theorem preprocess_features_errors (d : CreditInput) :
  (preprocess_features d = inl Py.OverflowError <-> ~ counts_in_double_range d) /\
  (preprocess_features d = inl Py.TypeError <->
   counts_in_double_range d /\ ~ optional_fields_typed d) /\
  (forall e, preprocess_features d = inl e ->
             e = Py.OverflowError \/ e = Py.TypeError).
Proof.
  assert (Hover : ~ counts_in_double_range d ->
                  preprocess_features d = inl Py.OverflowError).
  { intros Hout. unfold preprocess_features.
    destruct (in_double_range_dec (age d)) as [Ha | Ha];
      [rewrite (of_int_in_range _ Ha) | rewrite (of_int_out_of_range _ Ha); reflexivity].
    destruct (in_double_range_dec (previous_loans d)) as [Hp | Hp];
      [rewrite (of_int_in_range _ Hp) | rewrite (of_int_out_of_range _ Hp); reflexivity].
    destruct (in_double_range_dec (late_payments d)) as [Hl | Hl];
      [| rewrite (of_int_out_of_range _ Hl); reflexivity].
    exfalso. apply Hout. repeat split; assumption. }
  assert (Htype : counts_in_double_range d -> ~ optional_fields_typed d ->
                  preprocess_features d = inl Py.TypeError).
  { intros (Ha & Hp & Hl) Hopt. unfold preprocess_features.
    rewrite (of_int_in_range _ Ha), (of_int_in_range _ Hp), (of_int_in_range _ Hl).
    rewrite marital_encoded_nocase, !of_int_bool. cbn [Py.bind].
    unfold optional_fields_typed in Hopt.
    destruct (payment_delay d) as [| | x]; [| reflexivity |];
      (destruct (average_balance d) as [| | y]; [| reflexivity |];
       exfalso; apply Hopt; split; discriminate). }
  assert (Hcounts : {counts_in_double_range d} + {~ counts_in_double_range d}).
  { unfold counts_in_double_range.
    destruct (in_double_range_dec (age d)); [| right; tauto].
    destruct (in_double_range_dec (previous_loans d)); [| right; tauto].
    destruct (in_double_range_dec (late_payments d)); [left; tauto | right; tauto]. }
  assert (Hopts : {optional_fields_typed d} + {~ optional_fields_typed d}).
  { unfold optional_fields_typed.
    destruct (payment_delay d); [| right; tauto |];
      (destruct (average_balance d); [| right; tauto |]; left; split; discriminate). }
  assert (Hany : forall e, preprocess_features d = inl e ->
                           (e = Py.OverflowError /\ ~ counts_in_double_range d) \/
                           (e = Py.TypeError /\ counts_in_double_range d
                            /\ ~ optional_fields_typed d)).
  { intros e He.
    destruct Hcounts as [Hc | Hc].
    - destruct Hopts as [Ho | Ho].
      + rewrite (preprocess_features_run d (conj Hc Ho)) in He. discriminate He.
      + rewrite (Htype Hc Ho) in He. injection He as <-. right. tauto.
    - rewrite (Hover Hc) in He. injection He as <-. left. tauto. }
  split; [| split].
  - split; [| exact Hover].
    intros He. destruct (Hany _ He) as [[_ Hc] | [Hbad _]]; [exact Hc | discriminate Hbad].
  - split; [| intros [Hc Ho]; exact (Htype Hc Ho)].
    intros He. destruct (Hany _ He) as [[Hbad _] | [_ Hc]]; [discriminate Hbad | exact Hc].
  - intros e He. destruct (Hany _ He) as [[-> _] | [-> _]]; auto.
Qed.

Lemma demo_huge_out_of_range : ~ counts_in_double_range Demo.applicant_huge_count.
Proof.
  intros (_ & Hp & _). unfold in_double_range, double_limit in Hp.
  cbn [Demo.applicant_huge_count previous_loans] in Hp. lia.
Qed.

Lemma preprocess_features_errors_witness :
  preprocess_features Demo.applicant_huge_count = inl Py.OverflowError.
Proof.
  apply (proj2 (proj1 (preprocess_features_errors Demo.applicant_huge_count))).
  exact demo_huge_out_of_range.
Defined.

(** ** The scorer and the store, together *)

Section ScorerStoreFacts.

Context {RandomState Scaler Classifier : Type}.
Context `{NumpyRandom RandomState} `{Sklearn Scaler Classifier}.

(** What the scoring steps return. *)
Lemma score_with_returns (model scaler : pyobj) (d : CreditInput)
    (score : Z) (level : string) (factors : Factors) :
  score_with model scaler d = inr (score, level, factors) ->
  level = get_risk_level score /\
  factors = table_factors d /\
  encodable d /\
  (forall s, monthly_expense d <> S754_zero s).
Proof.
  unfold score_with. intros Hrun.
  destruct (preprocess_features d) as [e | features] eqn:Hpre;
    cbn [Py.bind] in Hrun; [discriminate Hrun |].
  destruct (preprocess_returns_encodable d features Hpre) as [Henc _].
  destruct (transform scaler [features]) as [e | X];
    cbn [Py.bind] in Hrun; [discriminate Hrun |].
  destruct (predict_proba model X) as [e | probas];
    cbn [Py.bind] in Hrun; [discriminate Hrun |].
  destruct (index probas 0) as [e | proba];
    cbn [Py.bind] in Hrun; [discriminate Hrun |].
  destruct (index proba 0) as [e | p];
    cbn [Py.bind] in Hrun; [discriminate Hrun |].
  destruct (F64.to_int (F64.mul p F64.f100)) as [e | n];
    cbn [Py.bind] in Hrun; [discriminate Hrun |].
  destruct (feature_importances_ model) as [e | importances];
    cbn [Py.bind] in Hrun; [discriminate Hrun |].
  destruct (analyze_risk_factors d features (combine feature_names importances))
    as [e | f] eqn:Hana; cbn [Py.bind Py.ok] in Hrun; [discriminate Hrun |].
  injection Hrun as <- <- <-.
  destruct (analyze_returns_table d _ _ f Hana) as [Hnz ->].
  repeat split; try assumption; apply Henc.
Qed.

(** Whatever [predict_credit_score] returns is consistent: the risk
    level is the tier of the returned score, the factors are those of
    the rule table (the classifier has no part in them), and the call
    returns only on records that the preprocessor can encode and whose
    expense is not zero. *)
Theorem predict_result_consistent (w w' : World) (d : CreditInput)
    (score : Z) (level : string) (factors : Factors) :
  predict_credit_score d w = (inr (score, level, factors), w') ->
  level = get_risk_level score /\
  factors = table_factors d /\
  encodable d /\
  (forall s, monthly_expense d <> S754_zero s).
Proof.
  unfold predict_credit_score, io_bind. intros Hrun.
  destruct (load_model w) as [[e | [model scaler]] w1]; [discriminate Hrun |].
  unfold lift in Hrun. injection Hrun as Hrun _.
  exact (score_with_returns model scaler d score level factors Hrun).
Qed.

(** A load that finds both files, one of them partial. *)
Lemma load_model_partial (w : World) :
  is_Some (files w !! MODEL_PATH) ->
  is_Some (files w !! SCALER_PATH) ->
  files w !! MODEL_PATH = Some Truncated \/ files w !! SCALER_PATH = Some Truncated ->
  load_model w = (inl Py.LoadError, w).
Proof.
  intros [bm Hm] [bs Hs] Hpartial.
  unfold load_model, io_bind, path_exists, joblib_load, ret.
  rewrite Hm, Hs. cbn. rewrite Hm.
  destruct bm as [m |]; [| reflexivity].
  rewrite Hs. destruct bs as [s |]; [| reflexivity].
  destruct Hpartial as [Hp | Hp]; rewrite Hp in *; discriminate.
Qed.

Lemma predict_partial (w : World) (d : CreditInput) :
  is_Some (files w !! MODEL_PATH) ->
  is_Some (files w !! SCALER_PATH) ->
  files w !! MODEL_PATH = Some Truncated \/ files w !! SCALER_PATH = Some Truncated ->
  predict_credit_score d w = (inl Py.LoadError, w).
Proof.
  intros Hm Hs Hpartial.
  unfold predict_credit_score, io_bind.
  rewrite (load_model_partial w Hm Hs Hpartial). reflexivity.
Qed.

(** An artifact file that exists but holds no complete pickle is never
    repaired: when both files exist and one of them is partial,
    [load_model] raises instead of training again and leaves every file
    as it is, and so does every call of [predict_credit_score]. *)
Theorem load_model_keeps_partial_artifact (w : World) (d : CreditInput) :
  is_Some (files w !! MODEL_PATH) ->
  is_Some (files w !! SCALER_PATH) ->
  files w !! MODEL_PATH = Some Truncated \/ files w !! SCALER_PATH = Some Truncated ->
  (exists e, load_model w = (inl e, w)) /\
  (exists e, predict_credit_score d w = (inl e, w)).
Proof.
  intros Hm Hs Hpartial. split; exists Py.LoadError.
  - exact (load_model_partial w Hm Hs Hpartial).
  - exact (predict_partial w d Hm Hs Hpartial).
Qed.

(** With both pickles on disk a call of [predict_credit_score] changes
    nothing: no file is written and numpy's generator is not touched,
    whether the scoring returns or raises. *)
Lemma predict_reads_only (w : World) (m s : pyobj) (d : CreditInput) :
  files w !! MODEL_PATH = Some (Pickled m) ->
  files w !! SCALER_PATH = Some (Pickled s) ->
  predict_credit_score d w = (score_with m s d, w).
Proof.
  intros Hm Hs. apply predict_with_loaded. apply load_model_hit; assumption.
Qed.

(** Scoring is repeatable: as long as the two writes of a cold start
    complete, a second call of [predict_credit_score] on the same record
    gives the result of the first and leaves the state that the first
    call left; only the first call can train. *)
Theorem predict_is_repeatable (w : World) (d : CreditInput) :
  writes_complete 2 (disk w) = true ->
  predict_credit_score d (snd (predict_credit_score d w))
  = predict_credit_score d w.
Proof.
  intros Hok.
  destruct (files w !! MODEL_PATH) as [[m |] |] eqn:Hm;
    [destruct (files w !! SCALER_PATH) as [[s |] |] eqn:Hs | |].
  - rewrite (predict_reads_only w m s d Hm Hs). cbn [snd].
    apply predict_reads_only; assumption.
  - assert (Hp : predict_credit_score d w = (inl Py.LoadError, w))
      by (apply predict_partial; [rewrite Hm; eauto | rewrite Hs; eauto | right; exact Hs]).
    rewrite Hp. cbn [snd]. exact Hp.
  - assert (Hload : load_model w = train_model w)
      by (apply load_model_miss; right; exact Hs).
    rewrite (train_model_completes w Hok) in Hload.
    rewrite (predict_with_loaded _ _ _ _ d Hload). cbn [snd].
    apply predict_reads_only; cbn [files].
    + rewrite lookup_insert_ne by (intros E; symmetry in E; exact (paths_differ E)).
      apply lookup_insert_eq.
    + apply lookup_insert_eq.
  - destruct (files w !! SCALER_PATH) as [bs |] eqn:Hs.
    + assert (Hp : predict_credit_score d w = (inl Py.LoadError, w))
        by (apply predict_partial; [rewrite Hm; eauto | rewrite Hs; eauto | left; exact Hm]).
      rewrite Hp. cbn [snd]. exact Hp.
    + assert (Hload : load_model w = train_model w)
        by (apply load_model_miss; right; exact Hs).
      rewrite (train_model_completes w Hok) in Hload.
      rewrite (predict_with_loaded _ _ _ _ d Hload). cbn [snd].
      apply predict_reads_only; cbn [files].
      * rewrite lookup_insert_ne by (intros E; symmetry in E; exact (paths_differ E)).
        apply lookup_insert_eq.
      * apply lookup_insert_eq.
  - assert (Hload : load_model w = train_model w)
      by (apply load_model_miss; left; exact Hm).
    rewrite (train_model_completes w Hok) in Hload.
    rewrite (predict_with_loaded _ _ _ _ d Hload). cbn [snd].
    apply predict_reads_only; cbn [files].
    + rewrite lookup_insert_ne by (intros E; symmetry in E; exact (paths_differ E)).
      apply lookup_insert_eq.
    + apply lookup_insert_eq.
Qed.

(** Training does not depend on what came before: two runs of
    [train_model] whose writes meet the same outcomes return the same
    result (the same pair, or the same exception) and leave numpy's
    global generator in the same state, whatever the state of the
    generator and the files before each run. *)
Theorem train_model_reproducible (w1 w2 : World) :
  disk w1 = disk w2 ->
  fst (train_model w1) = fst (train_model w2) /\
  rng (snd (train_model w1)) = rng (snd (train_model w2)) /\
  disk (snd (train_model w1)) = disk (snd (train_model w2)).
Proof.
  intros Hdisk. rewrite !train_model_unfold.
  assert (Hm : fresh_model (rng w1) = fresh_model (rng w2)).
  { unfold fresh_model, fresh_scaler, fresh_corpus.
    rewrite (create_training_data_fixed (rng w1) (rng w2)). reflexivity. }
  assert (Hs : fresh_scaler (rng w1) = fresh_scaler (rng w2)).
  { unfold fresh_scaler, fresh_corpus.
    rewrite (create_training_data_fixed (rng w1) (rng w2)). reflexivity. }
  assert (Hg : rng_after_training (rng w1) = rng_after_training (rng w2)).
  { unfold rng_after_training.
    rewrite (create_training_data_fixed (rng w1) (rng w2)). reflexivity. }
  rewrite Hm, Hs, Hg.
  unfold io_bind, joblib_dump, ret; cbn [files rng disk]. rewrite Hdisk.
  destruct (disk w2) as [| [ | | ] [| [ | | ] rest]]; cbn; repeat split.
Qed.

(** Training and loading round-trip: after a run of [train_model]
    whose two writes complete, [load_model] returns the very pair that
    the run returned, without training again and without changing the
    state, and [predict_credit_score] scores with that pair. *)
Theorem train_then_load_round_trip (w : World) (d : CreditInput) :
  writes_complete 2 (disk w) = true ->
  exists (model scaler : pyobj) (w' : World),
    train_model w = (inr (model, scaler), w') /\
    load_model w' = (inr (model, scaler), w') /\
    predict_credit_score d w' = (score_with model scaler d, w').
Proof.
  intros Hok. pose proof (load_after_training w Hok) as Hload.
  rewrite (train_model_completes w Hok) in Hload |- *. cbn [fst snd] in Hload.
  eexists _, _, _. split; [reflexivity |]. split; [exact Hload |].
  apply predict_with_loaded. exact Hload.
Qed.

End ScorerStoreFacts.

(** *** On the stand-in libraries *)

Lemma demo_predict :
  predict_credit_score Demo.applicant (Demo.world Demo.stored_files [])
  = (inr (90, "bajo riesgo"%string, table_factors Demo.applicant),
     Demo.world Demo.stored_files []).
Proof.
  rewrite (predict_with_loaded _ _ _ _ _ demo_load_model).
  rewrite score_example_applicant. reflexivity.
Qed.

Lemma predict_result_consistent_witness :
  "bajo riesgo"%string = get_risk_level 90 /\
  table_factors Demo.applicant = table_factors Demo.applicant /\
  encodable Demo.applicant /\
  (forall s, monthly_expense Demo.applicant <> S754_zero s).
Proof.
  exact (predict_result_consistent _ _ _ _ _ _ demo_predict).
Defined.

Lemma partial_files_model : partial_files !! MODEL_PATH = Some Truncated.
Proof.
  unfold partial_files.
  rewrite lookup_insert_ne by (intros E; symmetry in E; exact (paths_differ E)).
  apply lookup_insert_eq.
Qed.

Lemma partial_files_scaler :
  partial_files !! SCALER_PATH = Some (Pickled Demo.old_scaler).
Proof. unfold partial_files. apply lookup_insert_eq. Qed.

Lemma load_model_keeps_partial_artifact_witness :
  exists e, load_model (Demo.world partial_files [])
            = (inl e, Demo.world partial_files []).
Proof.
  apply (proj1 (load_model_keeps_partial_artifact
                  (Demo.world partial_files []) Demo.applicant
                  (ex_intro _ _ partial_files_model)
                  (ex_intro _ _ partial_files_scaler)
                  (or_introl partial_files_model))).
Defined.

Lemma predict_is_repeatable_witness :
  predict_credit_score Demo.applicant
    (snd (predict_credit_score Demo.applicant (Demo.world ∅ [])))
  = predict_credit_score Demo.applicant (Demo.world ∅ []).
Proof.
  apply (predict_is_repeatable (Demo.world ∅ []) Demo.applicant).
  reflexivity.
Defined.

Lemma train_model_reproducible_witness :
  fst (train_model {| files := ∅; rng := 3; disk := [WriteOk] |})
  = fst (train_model {| files := Demo.stored_files; rng := 11; disk := [WriteOk] |}).
Proof.
  apply (proj1 (train_model_reproducible
                  {| files := ∅; rng := 3; disk := [WriteOk] |}
                  {| files := Demo.stored_files; rng := 11; disk := [WriteOk] |}
                  eq_refl)).
Defined.

Lemma train_then_load_round_trip_witness :
  exists (model scaler : pyobj) (w' : World),
    train_model (Demo.world ∅ []) = (inr (model, scaler), w') /\
    load_model w' = (inr (model, scaler), w') /\
    predict_credit_score Demo.applicant w'
    = (score_with model scaler Demo.applicant, w').
Proof.
  apply (train_then_load_round_trip (Demo.world ∅ []) Demo.applicant).
  reflexivity.
Defined.

(** * The synthetic corpus: shape and ranges *)

Lemma map2_length {A B C} (f : A -> B -> C) (xs : list A) (ys : list B) :
  length xs = length ys -> length (map2 f xs ys) = length xs.
Proof.
  revert ys. induction xs as [| x xs IH]; intros [| y ys] Hlen;
    cbn in *; try reflexivity; try discriminate.
  f_equal. apply IH. congruence.
Qed.

(** Adding a column to rows of one width gives rows one wider, headed by
    the entries of the column. *)
Lemma push_column_shape (P : float -> Prop) (width : nat) (col : list float)
    (rows : matrix) :
  length col = length rows ->
  Forall P col ->
  Forall (fun row => length row = width) rows ->
  length (push_column col rows) = length col /\
  Forall (fun row => length row = S width) (push_column col rows) /\
  Forall (fun row => exists a rest, row = a :: rest /\ P a) (push_column col rows).
Proof.
  revert rows. induction col as [| x col IH]; intros [| r rows] Hlen HP Hrows;
    cbn in *; try discriminate.
  - repeat split; constructor.
  - inversion HP as [| ? ? Hx HP']; subst.
    inversion Hrows as [| ? ? Hr Hrows']; subst.
    destruct (IH rows ltac:(congruence) HP' Hrows') as (Hl & Hw & Hh).
    split; [congruence |]. split; constructor; try assumption.
    + reflexivity.
    + exists x, r. split; [reflexivity | exact Hx].
Qed.

Lemma fold_push_shape (n : nat) (cols : list (list float)) :
  Forall (fun col => length col = n) cols ->
  length (fold_right push_column (repeat [] n) cols) = n /\
  Forall (fun row => length row = length cols)
    (fold_right push_column (repeat [] n) cols).
Proof.
  induction cols as [| c cols IH]; intros Hcols; cbn [fold_right length].
  - split; [apply repeat_length |].
    apply List.Forall_forall. intros row Hin. apply repeat_spec in Hin. subst. reflexivity.
  - inversion Hcols as [| ? ? Hc Hcols']; subst.
    destruct (IH Hcols') as [Hl Hw].
    destruct (push_column_shape (fun _ => True) (length cols) c
                (fold_right push_column (repeat [] (length c)) cols))
      as (Hl' & Hw' & _).
    + congruence.
    + apply List.Forall_forall. intros; exact I.
    + exact Hw.
    + split; [exact Hl' | exact Hw'].
Qed.

(** [np.column_stack] of equally long columns: one row per entry, one
    entry per column, and the first entry of a row comes from the first
    column. *)
Lemma column_stack_shape (P : float -> Prop) (n : nat) (c : list float)
    (cols : list (list float)) :
  length c = n ->
  Forall (fun col => length col = n) cols ->
  Forall P c ->
  length (column_stack (c :: cols)) = n /\
  Forall (fun row => length row = S (length cols)) (column_stack (c :: cols)) /\
  Forall (fun row => exists a rest, row = a :: rest /\ P a) (column_stack (c :: cols)).
Proof.
  intros Hc Hcols HP. unfold column_stack. cbn [fold_right]. rewrite Hc.
  destruct (fold_push_shape n cols Hcols) as [Hl Hw].
  destruct (push_column_shape P (length cols) c
              (fold_right push_column (repeat [] n) cols))
    as (Hl' & Hw' & Hh); try assumption; [congruence |].
  split; [congruence |]. split; assumption.
Qed.

(** ** Comparison of floats *)

Lemma SFcompare_antisym (x y : float) :
  SFcompare y x = option_map CompOpp (SFcompare x y).
Proof.
  destruct x as [sx | sx | | sx mx ex], y as [sy | sy | | sy my ey];
    try reflexivity;
    try (destruct sx; reflexivity);
    try (destruct sy; reflexivity);
    try (destruct sx, sy; reflexivity).
  unfold SFcompare. destruct sx, sy; try reflexivity; cbn [option_map].
  - rewrite (Z.compare_antisym ex ey).
    destruct (ex ?= ey) eqn:He; cbn [CompOpp]; try reflexivity.
    rewrite (Pos.compare_cont_antisym mx my Eq). reflexivity.
  - rewrite (Z.compare_antisym ex ey).
    destruct (ex ?= ey) eqn:He; cbn [CompOpp]; try reflexivity.
    rewrite (Pos.compare_cont_antisym mx my Eq). reflexivity.
Qed.

Lemma SFcompare_refl (x : float) (c : comparison) :
  SFcompare x x = Some c -> c = Eq.
Proof.
  intros Hc. pose proof (SFcompare_antisym x x) as Ha. rewrite Hc in Ha.
  cbn in Ha. destruct c; [reflexivity | discriminate Ha | discriminate Ha].
Qed.

(** [np.clip] between two bounds in order returns NaN or a value between
    the bounds. *)
Lemma clip_within (lo hi x : float) :
  SFcompare lo hi = Some Lt ->
  within lo hi (F64.minimum (F64.maximum x lo) hi).
Proof.
  intros Hlh. unfold within, F64.minimum, F64.maximum, F64.leb, SFleb, F64.nan.
  assert (Hlo : SFcompare lo lo = Some Eq).
  { destruct (SFcompare lo lo) as [c |] eqn:Hc.
    - rewrite (SFcompare_refl lo c Hc). reflexivity.
    - destruct lo, hi; try discriminate; try destruct s; discriminate. }
  assert (Hhi : SFcompare hi hi = Some Eq).
  { destruct (SFcompare hi hi) as [c |] eqn:Hc.
    - rewrite (SFcompare_refl hi c Hc). reflexivity.
    - destruct hi, lo; try discriminate; try destruct s; try destruct s0; try discriminate. }
  pose proof (SFcompare_antisym x lo) as Hxl.
  destruct (SFcompare x lo) as [[| |] |] eqn:Hc1; cbn [option_map CompOpp] in Hxl.
  - destruct (SFcompare x hi) as [[| |] |] eqn:Hc2.
    + right. rewrite Hxl, Hc2. split; reflexivity.
    + right. rewrite Hxl, Hc2. split; reflexivity.
    + right. rewrite Hlh, Hhi. split; reflexivity.
    + left. reflexivity.
  - rewrite Hlh. right. rewrite Hlo, Hlh. split; reflexivity.
  - destruct (SFcompare x hi) as [[| |] |] eqn:Hc2.
    + right. rewrite Hxl, Hc2. split; reflexivity.
    + right. rewrite Hxl, Hc2. split; reflexivity.
    + right. rewrite Hlh, Hhi. split; reflexivity.
    + left. reflexivity.
  - left. reflexivity.
Qed.

(** ** The corpus of [create_training_data] *)

Section CorpusShape.

Context {RandomState : Type} `{NumpyRandom RandomState}.

Lemma map_length_n {A B} (f : A -> B) (xs : list A) (n : nat) :
  length xs = n -> length (map f xs) = n.
Proof. intros Hx. rewrite length_map. exact Hx. Qed.

Lemma map2_length_n {A B C} (f : A -> B -> C) (xs : list A) (ys : list B)
    (n : nat) :
  length xs = n -> length ys = n -> length (map2 f xs ys) = n.
Proof. intros Hx Hy. rewrite map2_length; congruence. Qed.

Lemma clip_all_within (lo hi : float) (xs : list float) :
  SFcompare lo hi = Some Lt -> Forall (within lo hi) (clip lo hi xs).
Proof.
  intros Hlh. apply List.Forall_forall. intros x Hin.
  apply in_map_iff in Hin. destruct Hin as (x0 & <- & _).
  apply clip_within. exact Hlh.
Qed.

(** The length of an array built from the draws. *)
Ltac array_length :=
  unfold weigh, vadd, vmul, vdiv, as_float, clip;
  repeat first [assumption | apply map2_length_n | apply map_length_n].

(** The corpus for any seed and sample count, with samplers that return
    as many values as they are asked for. *)
Lemma create_training_data_with_shape (seed_value n_samples : Z)
    (g : RandomState) :
  sized_draws ->
  let X := fst (fst (create_training_data_with seed_value n_samples g)) in
  let y := snd (fst (create_training_data_with seed_value n_samples g)) in
  length X = Z.to_nat n_samples /\
  Forall (fun row => length row = 11%nat) X /\
  Forall (fun row => exists a rest, row = a :: rest
                     /\ within (F64.of_Z 18) (F64.of_Z 80) a) X /\
  length y = Z.to_nat n_samples /\
  Forall (fun label => label = 0 \/ label = 1) y.
Proof.
  intros Hsized.
  cbv beta iota zeta delta [create_training_data_with rbind random_seed rret].
  set (n := Z.to_nat n_samples).
  repeat match goal with
  | |- context [let (_, _) := ?c in _] =>
      let E := fresh "E" in
      destruct c as [? ?] eqn:E; apply (f_equal fst) in E; cbn [fst] in E;
      cbv beta iota zeta
  end.
  cbn [fst snd].
  repeat match goal with
  | E : fst (?f ?a ?b n_samples ?g0) = ?l |- _ =>
      first
        [ assert (length l = n)
            by (rewrite <- E; apply (Hsized a b 0 n_samples g0))
        | assert (length l = n)
            by (rewrite <- E; apply (Hsized b b a n_samples g0)) ];
      clear E
  | E : fst (?f ?a n_samples ?g0) = ?l |- _ =>
      assert (length l = n)
        by (rewrite <- E; apply (Hsized a a 0 n_samples g0));
      clear E
  end.
  assert (Hlt : SFcompare (F64.of_Z 18) (F64.of_Z 80) = Some Lt)
    by (vm_compute; reflexivity).
  match goal with
  | |- length (column_stack (?c :: ?cols)) = _ /\ _ =>
      destruct (column_stack_shape (within (F64.of_Z 18) (F64.of_Z 80)) n c cols)
        as (HX1 & HX2 & HX3)
  end.
  - array_length.
  - repeat constructor; array_length.
  - apply clip_all_within, Hlt.
  - split; [exact HX1 |]. split; [exact HX2 |]. split; [exact HX3 |].
    split.
    + array_length.
    + apply List.Forall_forall. intros label Hin.
      apply in_map_iff in Hin. destruct Hin as (risk & <- & _).
      destruct (F64.gtb risk F64.f0_5); auto.
Qed.

(** [create_training_data] returns a matrix of 1000 rows of 11 features
    each and 1000 labels, every label 0 or 1, and the first feature of
    every row (the age) is NaN or lies between 18 and 80; numpy's
    samplers are taken to return as many values as they are asked for. *)
Theorem create_training_data_shape (g : RandomState) :
  sized_draws ->
  let X := fst (fst (create_training_data g)) in
  let y := snd (fst (create_training_data g)) in
  length X = 1000%nat /\
  Forall (fun row => length row = 11%nat) X /\
  Forall (fun row => exists a rest, row = a :: rest
                     /\ within (F64.of_Z 18) (F64.of_Z 80) a) X /\
  length y = 1000%nat /\
  Forall (fun label => label = 0 \/ label = 1) y.
Proof.
  intros Hsized.
  change 1000%nat with (Z.to_nat 1000).
  exact (create_training_data_with_shape 42 1000 g Hsized).
Qed.

End CorpusShape.

Lemma demo_sized_draws : sized_draws (RandomState := Z).
Proof.
  intros a b k size g. cbn. unfold Demo.constant_draw. cbn [fst].
  rewrite !repeat_length. repeat split.
Qed.

Lemma create_training_data_shape_witness :
  length (fst (fst (create_training_data (7 : Z)))) = 1000%nat.
Proof.
  exact (proj1 (create_training_data_shape 7 demo_sized_draws)).
Defined.

(** ** Training and scoring agree on the width *)

Section Widths.

Context {RandomState : Type} `{NumpyRandom RandomState}.

(** The vector that [preprocess_features] returns has one entry per name
    in the list of feature names of [predict_credit_score], and is as
    wide as every row of the corpus the scaler and the classifier are
    fitted on: eleven features on both sides. *)
Theorem features_match_training_width (d : CreditInput)
    (features : list float) (g : RandomState) :
  sized_draws ->
  preprocess_features d = inr features ->
  length features = length feature_names /\
  Forall (fun row => length row = length features)
    (fst (fst (create_training_data g))).
Proof.
  intros Hsized Hpre.
  destruct (preprocess_returns_encodable d features Hpre) as [_ ->].
  split; [reflexivity |].
  exact (proj1 (proj2 (create_training_data_with_shape 42 1000 g Hsized))).
Qed.

End Widths.

Lemma features_match_training_width_witness :
  length (encoded_vector Demo.applicant) = length feature_names /\
  Forall (fun row => length row = length (encoded_vector Demo.applicant))
    (fst (fst (create_training_data (7 : Z)))).
Proof.
  apply (features_match_training_width Demo.applicant
           (encoded_vector Demo.applicant) 7 demo_sized_draws).
  exact (preprocess_features_run Demo.applicant demo_applicant_encodable).
Defined.

(** * The explanation text *)

Lemma append_assoc (a b c : string) :
  ((a ++ b) ++ c)%string = (a ++ (b ++ c))%string.
Proof.
  induction a as [| x a IH]; [reflexivity |].
  change (String x ((a ++ b) ++ c) = String x (a ++ (b ++ c)))%string.
  f_equal. exact IH.
Qed.

Lemma append_empty_r (a : string) : (a ++ "")%string = a.
Proof.
  induction a as [| x a IH]; [reflexivity |].
  change (String x (a ++ "") = String x a)%string.
  f_equal. exact IH.
Qed.

Lemma starts_with_app (s t u : string) :
  starts_with s t -> starts_with s (t ++ u)%string.
Proof.
  intros [rest ->]. exists (rest ++ u)%string. apply append_assoc.
Qed.

Lemma starts_with_trans (s t u : string) :
  starts_with s t -> starts_with t u -> starts_with s u.
Proof.
  intros [r1 ->] [r2 ->]. exists (r1 ++ r2)%string. apply append_assoc.
Qed.

Lemma starts_with_prefix (s rest : string) : starts_with s (s ++ rest)%string.
Proof. exists rest. reflexivity. Qed.

Lemma occurs_in_app_r (s t u : string) :
  occurs_in s t -> occurs_in s (t ++ u)%string.
Proof.
  intros (front & rest & ->). exists front, (rest ++ u)%string.
  rewrite !append_assoc. reflexivity.
Qed.

Lemma occurs_in_extends (s e t : string) :
  starts_with e t -> occurs_in s e -> occurs_in s t.
Proof. intros [rest ->] Hocc. apply occurs_in_app_r. exact Hocc. Qed.

Lemma occurs_in_end (front s : string) : occurs_in s (front ++ s)%string.
Proof. exists front, ""%string. rewrite append_empty_r. reflexivity. Qed.

(** A loop of bullet lines only adds text at the end. *)
Lemma add_bullets_extends (items : list string) (e : string) :
  starts_with e (add_bullets e items).
Proof.
  revert e. induction items as [| a items IH]; intros e; cbn [add_bullets fold_left].
  - exists ""%string. symmetry. apply append_empty_r.
  - apply (starts_with_trans e (e ++ "• " ++ a ++ nl)%string).
    + apply starts_with_prefix.
    + apply IH.
Qed.

Lemma add_bullets_lists (items : list string) (e f : string) :
  In f items -> occurs_in ("• " ++ f ++ nl)%string (add_bullets e items).
Proof.
  revert e. induction items as [| a items IH]; intros e Hin; [destruct Hin |].
  cbn [add_bullets fold_left]. destruct Hin as [-> | Hin].
  - apply (occurs_in_extends _ (e ++ "• " ++ f ++ nl)%string).
    + apply add_bullets_extends.
    + apply occurs_in_end.
  - apply IH. exact Hin.
Qed.

Lemma add_section_extends (e header : string) (items : list string) :
  starts_with e (add_section e header items).
Proof.
  unfold add_section. destruct items as [| a items].
  - exists ""%string. symmetry. apply append_empty_r.
  - apply starts_with_app.
    apply (starts_with_trans e (e ++ header ++ nl)%string).
    + apply starts_with_prefix.
    + apply add_bullets_extends.
Qed.

Lemma add_section_lists (e header f : string) (items : list string) :
  In f items -> occurs_in ("• " ++ f ++ nl)%string (add_section e header items).
Proof.
  intros Hin. unfold add_section. destruct items as [| a items]; [destruct Hin |].
  apply occurs_in_app_r. apply add_bullets_lists. exact Hin.
Qed.

(** The explanation is its three sections, in order, followed by the
    advice of the tier of the score. *)
Lemma generate_explanation_sections (name : string) (score : Z)
    (risk_level : string) (factors : Factors) :
  generate_explanation name score risk_level factors
  = (add_section
       (add_section
          (add_section
             (name ++ ": " ++ risk_level ++ " (score " ++ str_of_int score
              ++ "/100)" ++ nl ++ nl)
             "✅ Factores positivos:" (positive factors))
          "⚠️ Factores de riesgo:" (negative factors))
       "ℹ️ Consideraciones adicionales:" (neutral factors)
     ++ advice_for_level (get_risk_level score))%string.
Proof.
  unfold generate_explanation, get_risk_level.
  destruct (score <=? 40); [reflexivity |].
  destruct (score <=? 70); reflexivity.
Qed.

(** The explanation opens with the line [name: level (score n/100)] and
    an empty line, and closes with the advice of the tier that
    [get_risk_level] gives the score: the recommendations up to 40, the
    suggestions from 41 to 70, the congratulation above 70.  The advice
    follows the score, not the level that was passed in. *)
Theorem explanation_opens_and_closes (name : string) (score : Z)
    (risk_level : string) (factors : Factors) :
  starts_with
    (name ++ ": " ++ risk_level ++ " (score " ++ str_of_int score ++ "/100)"
     ++ nl ++ nl)%string
    (generate_explanation name score risk_level factors) /\
  ends_with (advice_for_level (get_risk_level score))
    (generate_explanation name score risk_level factors).
Proof.
  rewrite generate_explanation_sections. split.
  - apply starts_with_app.
    eapply starts_with_trans; [| apply add_section_extends].
    eapply starts_with_trans; [| apply add_section_extends].
    apply add_section_extends.
  - eexists. reflexivity.
Qed.

(** Every factor of the three lists is printed: it has its bullet line
    in the explanation. *)
Theorem explanation_lists_every_factor (name : string) (score : Z)
    (risk_level : string) (factors : Factors) (f : string) :
  In f (positive factors) \/ In f (negative factors) \/ In f (neutral factors) ->
  occurs_in ("• " ++ f ++ nl)%string
    (generate_explanation name score risk_level factors).
Proof.
  intros Hin. rewrite generate_explanation_sections.
  apply occurs_in_app_r.
  destruct Hin as [Hin | [Hin | Hin]].
  - eapply occurs_in_extends; [apply add_section_extends |].
    eapply occurs_in_extends; [apply add_section_extends |].
    apply add_section_lists. exact Hin.
  - eapply occurs_in_extends; [apply add_section_extends |].
    apply add_section_lists. exact Hin.
  - apply add_section_lists. exact Hin.
Qed.

Lemma explanation_lists_every_factor_witness :
  occurs_in ("• " ++ Msg.debt_low ++ nl)%string
    (generate_explanation "Ana" 90 "bajo riesgo" (table_factors Demo.applicant)).
Proof.
  apply (explanation_lists_every_factor "Ana" 90 "bajo riesgo"
           (table_factors Demo.applicant) Msg.debt_low).
  left. vm_compute. right. left. reflexivity.
Defined.

(** * The endpoint and the training script *)

Lemma dump_optional_typed (v : optional_float) :
  dump_optional v <> PyNone <-> v <> PyNone.
Proof. destruct v; cbn; split; intros Hv; try exact Hv; discriminate. Qed.

(** [model_dump] keeps a record encodable, and only an encodable one. *)
Lemma model_dump_encodable (c : CreditInput) :
  encodable (model_dump c) <-> encodable c.
Proof.
  unfold encodable, counts_in_double_range, optional_fields_typed.
  cbn [model_dump age previous_loans late_payments payment_delay average_balance].
  rewrite !dump_optional_typed. reflexivity.
Qed.

Lemma model_dump_table (c : CreditInput) :
  table_factors (model_dump c) = table_factors c.
Proof. reflexivity. Qed.

Lemma age_in_double_range (n : Z) : 0 < n <= 120 -> in_double_range n.
Proof.
  intros Hn. unfold in_double_range.
  assert (HL : 120 < double_limit) by (vm_compute; reflexivity).
  lia.
Qed.

Section ApiFacts.

Context {RandomState Scaler Classifier : Type}.
Context `{NumpyRandom RandomState} `{Sklearn Scaler Classifier}.

(** The endpoint once both business rules have passed. *)
Lemma calculate_after_rules (c : CreditInput) (s : Server) :
  float_geb (monthly_expense c) (monthly_income c) = false ->
  18 <= age c ->
  calculate_credit_score c s =
  match predict_credit_score (model_dump c) (world s) with
  | (inl _, w) =>
      (HTTPException 500 "Error interno del servidor al procesar la solicitud",
       {| world := w; applications := applications s; commits := commits s |})
  | (inr (score, risk_level, factors), w) =>
      (Returned {| response_name := name c;
                   response_risk_level := risk_level;
                   response_score := score;
                   response_explanation :=
                     generate_explanation (name c) score risk_level factors;
                   response_factors := factors |},
       save_application
         {| application_data := model_dump c;
            application_score := score;
            application_risk_level := risk_level |} w s)
  end.
Proof.
  intros Hrule Hage. unfold calculate_credit_score. rewrite Hrule.
  assert (Hlt : (age c <? 18) = false) by (apply Z.ltb_ge; exact Hage).
  rewrite Hlt. reflexivity.
Qed.

(** A request is answered with status 400 exactly when it breaks a
    business rule (the expense is at least the income, or the applicant
    is younger than 18); the rejection comes before anything else: the
    state of the service is as it was, so no model was loaded or trained
    and no row was stored. *)
Theorem business_rules_reject (c : CreditInput) (s : Server) :
  (float_geb (monthly_expense c) (monthly_income c) = true \/ age c < 18 ->
   exists detail, calculate_credit_score c s = (HTTPException 400 detail, s)) /\
  (forall detail s',
     calculate_credit_score c s = (HTTPException 400 detail, s') ->
     float_geb (monthly_expense c) (monthly_income c) = true \/ age c < 18).
Proof.
  split.
  - intros Hbroken. unfold calculate_credit_score.
    destruct (float_geb (monthly_expense c) (monthly_income c)) eqn:Hrule;
      [eexists; reflexivity |].
    destruct Hbroken as [Hb | Hage]; [discriminate Hb |].
    apply Z.ltb_lt in Hage. rewrite Hage. eexists; reflexivity.
  - intros detail s' Hrun.
    destruct (float_geb (monthly_expense c) (monthly_income c)) eqn:Hrule;
      [left; reflexivity |].
    destruct (Z.ltb_spec (age c) 18) as [Hage | Hage]; [right; exact Hage |].
    rewrite (calculate_after_rules c s Hrule Hage) in Hrun.
    destruct (predict_credit_score (model_dump c) (world s))
      as [[e | [[score level] factors]] w]; discriminate Hrun.
Qed.

(** A request that passes both business rules but whose record the
    preprocessor cannot encode (a count beyond the range of doubles, or
    a payment delay or average balance sent as [null]) is answered with
    status 500, in every state of the service, and no row is stored. *)
Theorem unencodable_request_is_500 (c : CreditInput) (s : Server) :
  float_geb (monthly_expense c) (monthly_income c) = false ->
  18 <= age c ->
  ~ encodable c ->
  exists w,
    calculate_credit_score c s =
    (HTTPException 500 "Error interno del servidor al procesar la solicitud",
     {| world := w; applications := applications s; commits := commits s |}).
Proof.
  intros Hrule Hage Henc. rewrite (calculate_after_rules c s Hrule Hage).
  destruct (predict_credit_score (model_dump c) (world s))
    as [[e | [[score level] factors]] w] eqn:Hrun.
  - exists w. reflexivity.
  - exfalso. apply Henc. apply model_dump_encodable.
    unfold predict_credit_score, io_bind in Hrun.
    destruct (load_model (world s)) as [[e | [model scaler]] w1];
      [discriminate Hrun |].
    unfold lift in Hrun. injection Hrun as Hrun _.
    exact (proj1 (proj2 (proj2 (score_with_returns _ _ _ _ _ _ Hrun)))).
Qed.

(** A request that passed the schema and both business rules, with
    counts that a double can hold and optional fields that are not
    [null], is scored when both artifacts are on disk and scikit-learn
    accepts the vector of the record, reporting the probability [p] for
    class 0 on it: the response carries the score [int(p * 100)], which
    lies between 0 and 100, the tier of that score, the factors of the
    rule table and the explanation built from them; the scoring state
    is untouched, and the row is appended to the table unless the commit
    fails. *)
Theorem accepted_request_is_scored (c : CreditInput) (s : Server)
    (model : Classifier) (scaler : Scaler) (p : float) :
  schema_numeric c ->
  float_geb (monthly_expense c) (monthly_income c) = false ->
  18 <= age c ->
  in_double_range (previous_loans c) ->
  in_double_range (late_payments c) ->
  optional_fields_typed c ->
  files (world s) !! MODEL_PATH = Some (Pickled (PModel model)) ->
  files (world s) !! SCALER_PATH = Some (Pickled (PScaler scaler)) ->
  class0_probability model scaler (encoded_vector (model_dump c)) p ->
  is_probability p ->
  exists score : Z,
    F64.to_int (F64.mul p F64.f100) = inr score /\
    0 <= score <= 100 /\
    fst (calculate_credit_score c s)
    = Returned {| response_name := name c;
                  response_risk_level := get_risk_level score;
                  response_score := score;
                  response_explanation :=
                    generate_explanation (name c) score (get_risk_level score)
                      (table_factors c);
                  response_factors := table_factors c |} /\
    world (snd (calculate_credit_score c s)) = world s /\
    applications (snd (calculate_credit_score c s))
    = match commits s with
      | true :: _ => applications s
      | _ => applications s ++
             [{| application_data := model_dump c;
                 application_score := score;
                 application_risk_level := get_risk_level score |}]
      end.
Proof.
  intros (Hage1 & _ & Hexp & _) Hrule Hage Hloans Hlate Hopt Hm Hs Hclass Hprob.
  assert (Henc : encodable (model_dump c)).
  { apply model_dump_encodable. split; [| exact Hopt].
    split; [apply age_in_double_range; exact Hage1 | split; assumption]. }
  pose proof (preprocess_features_run _ Henc) as Hpre.
  destruct (score_of_probability p Hprob) as (n & Hint & _ & Hrange).
  assert (Hrun : predict_credit_score (model_dump c) (world s)
                 = (inr (n, get_risk_level n, table_factors c), world s)).
  { rewrite (predict_with_loaded _ _ _ _ _ (load_model_hit _ _ _ Hm Hs)).
    rewrite (score_with_steps model scaler _ _ p n Hpre Hclass Hint).
    rewrite (analyze_by_table (model_dump c) _ _
               (div_by_positive (monthly_income c) (monthly_expense c) Hexp)).
    reflexivity. }
  exists n. split; [exact Hint |]. split; [exact Hrange |].
  rewrite (calculate_after_rules c s Hrule Hage), Hrun. cbn [fst snd].
  split; [reflexivity |].
  unfold save_application.
  destruct (commits s) as [| [|] rest]; cbn [world applications]; auto.
Qed.

(** The table has no say in the answer, and the endpoint only ever adds
    to it: the response and the scoring state are the same whatever rows
    are stored and whether or not the commit fails, and the rows after
    the call are the rows before it, followed by at most one row, that of
    the response just returned. *)
Theorem database_never_changes_the_response (c : CreditInput) (s : Server)
    (rows : list CreditApplication) (failures : list bool) :
  let s' := {| world := world s; applications := rows; commits := failures |} in
  fst (calculate_credit_score c s') = fst (calculate_credit_score c s) /\
  world (snd (calculate_credit_score c s')) = world (snd (calculate_credit_score c s)) /\
  (applications (snd (calculate_credit_score c s)) = applications s \/
   exists r,
     fst (calculate_credit_score c s) = Returned r /\
     applications (snd (calculate_credit_score c s))
     = applications s ++
       [{| application_data := model_dump c;
           application_score := response_score r;
           application_risk_level := response_risk_level r |}]).
Proof.
  intros s'. unfold calculate_credit_score.
  destruct (float_geb (monthly_expense c) (monthly_income c));
    [cbn; auto |].
  destruct (age c <? 18); [cbn; auto |].
  cbn [world s'].
  destruct (predict_credit_score (model_dump c) (world s))
    as [[e | [[score level] factors]] w]; [cbn; auto |].
  cbn [fst snd]. split; [reflexivity |]. unfold save_application.
  split.
  - cbn [commits applications].
    destruct failures as [| [|] ?], (commits s) as [| [|] ?]; reflexivity.
  - destruct (commits s) as [| [|] rest]; cbn [applications]; eauto.
Qed.

(** The training script ends with status 0 exactly when both writes
    complete and with status 1 otherwise (the calls of numpy and
    scikit-learn are total here, only a write can fail); after status 0
    both artifacts are on disk, so that the next [load_model] returns a
    pair without training again. *)
Theorem train_script_exit_status (w : World) :
  (fst (train_script w) = 0 <-> writes_complete 2 (disk w) = true) /\
  (fst (train_script w) = 1 <-> writes_complete 2 (disk w) = false) /\
  (fst (train_script w) = 0 ->
   exists model scaler,
     load_model (snd (train_script w))
     = (inr (model, scaler), snd (train_script w))).
Proof.
  destruct (writes_complete 2 (disk w)) eqn:Hok.
  - pose proof (load_after_training w Hok) as Hload.
    unfold train_script.
    rewrite (train_model_completes w Hok) in Hload |- *.
    cbn [fst snd] in Hload |- *.
    split; [tauto |]. split; [split; discriminate |].
    intros _. eexists _, _. exact Hload.
  - assert (Hfail : exists w', train_model w = (inl Py.OSError, w')).
    { destruct (disk w) as [| o1 rest] eqn:Hd; [discriminate Hok |].
      destruct o1.
      - destruct rest as [| o2 rest]; [discriminate Hok |].
        destruct o2; [discriminate Hok | |];
          eexists; eapply train_model_second_write_fails;
            solve [exact Hd | discriminate].
      - eexists. eapply train_model_first_write_fails;
          solve [exact Hd | discriminate].
      - eexists. eapply train_model_first_write_fails;
          solve [exact Hd | discriminate]. }
    destruct Hfail as [w' Hfail]. unfold train_script. rewrite Hfail.
    cbn [fst snd].
    split; [split; discriminate |]. split; [tauto |]. discriminate.
Qed.

End ApiFacts.

(** *** On the stand-in libraries *)

Lemma business_rules_reject_witness :
  exists detail,
    calculate_credit_score applicant_minor (server [] [])
    = (HTTPException 400 detail, server [] []).
Proof.
  apply (proj1 (business_rules_reject applicant_minor (server [] []))).
  right. cbn [applicant_minor age]. lia.
Defined.

Lemma unencodable_request_is_500_witness :
  exists w,
    calculate_credit_score applicant_null_delay (server [] []) =
    (HTTPException 500 "Error interno del servidor al procesar la solicitud",
     {| world := w; applications := []; commits := [] |}).
Proof.
  apply (unencodable_request_is_500 applicant_null_delay (server [] [])).
  - vm_compute. reflexivity.
  - cbn [applicant_null_delay age]. lia.
  - intros [_ [Hdelay _]]. apply Hdelay. reflexivity.
Defined.

Lemma demo_applicant_schema : schema_numeric Demo.applicant.
Proof.
  unfold schema_numeric; cbn [Demo.applicant age previous_loans late_payments
    monthly_income monthly_expense debt_percentage payment_delay average_balance].
  repeat split; try reflexivity; try lia; intros x Hx; discriminate Hx.
Qed.

Lemma stored_files_model :
  Demo.stored_files !! MODEL_PATH = Some (Pickled (PModel F64.f0_9)).
Proof.
  unfold Demo.stored_files.
  rewrite lookup_insert_ne by (intros E; symmetry in E; exact (paths_differ E)).
  apply lookup_insert_eq.
Qed.

Lemma stored_files_scaler :
  Demo.stored_files !! SCALER_PATH = Some (Pickled (PScaler tt)).
Proof. unfold Demo.stored_files. apply lookup_insert_eq. Qed.

Lemma demo_class0_dumped :
  class0_probability (F64.f0_9 : float) tt
    (encoded_vector (model_dump Demo.applicant)) F64.f0_9.
Proof.
  split; [vm_compute; reflexivity |].
  split; [vm_compute; reflexivity |].
  exists [F64.f0_5], []. reflexivity.
Qed.

Lemma accepted_request_is_scored_witness :
  exists score : Z,
    F64.to_int (F64.mul F64.f0_9 F64.f100) = inr score /\
    0 <= score <= 100 /\
    fst (calculate_credit_score Demo.applicant (server [] [true]))
    = Returned {| response_name := "Ana";
                  response_risk_level := get_risk_level score;
                  response_score := score;
                  response_explanation :=
                    generate_explanation "Ana" score (get_risk_level score)
                      (table_factors Demo.applicant);
                  response_factors := table_factors Demo.applicant |} /\
    world (snd (calculate_credit_score Demo.applicant (server [] [true])))
    = Demo.world Demo.stored_files [] /\
    applications (snd (calculate_credit_score Demo.applicant (server [] [true])))
    = [].
Proof.
  apply (accepted_request_is_scored Demo.applicant (server [] [true])
           F64.f0_9 tt F64.f0_9).
  - exact demo_applicant_schema.
  - vm_compute. reflexivity.
  - cbn [Demo.applicant age]. lia.
  - unfold in_double_range, double_limit. cbn [Demo.applicant previous_loans]. lia.
  - unfold in_double_range, double_limit. cbn [Demo.applicant late_payments]. lia.
  - split; discriminate.
  - exact stored_files_model.
  - exact stored_files_scaler.
  - exact demo_class0_dumped.
  - exact demo_probability.
Defined.

Lemma train_script_exit_status_witness :
  fst (train_script (Demo.world ∅ [])) = 0.
Proof.
  apply (proj1 (train_script_exit_status (Demo.world ∅ []))).
  reflexivity.
Defined.
